(** * FIRE search client: a shallow embedding of [eval/fire/query_serper.py]
    and of the citation pattern of [app.py].

    The development follows the Python source function by function.

    - [Py]: the part of the Python runtime the client relies on: JSON values
      as returned by [response.json()], truthiness, [dict.get], slicing,
      [str()] and [repr()], [str.join], and exceptions as an error result.
    - [Serper]: the class [SerperAPI]: the extraction of evidence items in
      [_parse_snippets_with_links], the serialisation of [_parse_results],
      the retry loop of [_google_serper_api_results], and [run].
    - [Citation]: [re.findall] and [re.sub] for the one pattern [app.py] uses
      to read the citations back.
    - [Orchestrator]: the verification loop, which the repository imports
      from [eval/fire/verify_atomic_claim.py].
    - [Expected]: sentences of the specification as definitions.
    - [Examples]: the concrete clients, responses and backends of the
      examples.

    The properties follow the definitions, one section per module.

    Conventions.  A Python [str] is a [string]; one [ascii] stands for one
    character.  A [dict] is an association list in insertion order (the order
    [dict.items()] iterates in); lookups take the first binding of a key.
    A Python [float] is identified by its [repr], which determines it.  An
    integer is within the interpreter's limit on the digits converted to and
    from text (4300 by default from Python 3.11 on).  A loop that may not end
    takes a bound on its passes and reports when the bound is reached. *)

From Stdlib Require Import ZArith QArith Bool List String Ascii Lia Lqa DecimalString.
Import ListNotations.
Open Scope list_scope.
Open Scope Z_scope.
Open Scope string_scope.

Set Warnings "-register-all".

(* ================================================================== *)
(** ** Python values and built-ins *)

Module Py.

(** The exceptions that can leave the client. *)
Inductive exn : Type :=
| AssertionError
| AttributeError
| TypeError
| ValueError
| HTTPError
| JSONDecodeError
| OtherException (name : string).

(** A computation either returns or raises. *)
Inductive result (A : Type) : Type :=
| Ok (a : A)
| Raise (e : exn).

Arguments Ok {A} a.
Arguments Raise {A} e.

Definition bind {A B : Type} (m : result A) (f : A -> result B) : result B :=
  match m with
  | Ok a => f a
  | Raise e => Raise e
  end.

Notation "x <- m ;; f" := (bind m (fun x => f))
  (at level 61, m at next level, right associativity).

(** What [json.loads] builds: [None], [bool], [int], [float], [str], [list]
    and [dict] with string keys. *)
Inductive json : Type :=
| JNull
| JBool (b : bool)
| JInt (n : Z)
| JFloat (repr : string)
| JStr (s : string)
| JArr (l : list json)
| JObj (kvs : list (string * json)).

Definition dict : Type := list (string * json).

(** [bool(v)]: [None], [False], zero, and empty strings and containers are
    false. *)
Definition float_is_zero (repr : string) : bool :=
  (repr =? "0.0")%string || (repr =? "-0.0")%string.

Definition truthy (v : json) : bool :=
  match v with
  | JNull => false
  | JBool b => b
  | JInt n => negb (n =? 0)%Z
  | JFloat r => negb (float_is_zero r)
  | JStr s => negb (s =? "")%string
  | JArr l => match l with [] => false | _ :: _ => true end
  | JObj kvs => match kvs with [] => false | _ :: _ => true end
  end.

(** [isinstance(v, str)] *)
Definition isinstance_str (v : json) : bool :=
  match v with
  | JStr _ => true
  | _ => false
  end.

(** [key in d] and [d[key]] on a dict. *)
Fixpoint lookup (d : dict) (key : string) : option json :=
  match d with
  | [] => None
  | (k, v) :: rest => if (k =? key)%string then Some v else lookup rest key
  end.

(** [d.get(key, default)] on a dict. *)
Definition dict_get (d : dict) (key : string) (default : json) : json :=
  match lookup d key with
  | Some v => v
  | None => default
  end.

(** [v.get(key, default)] on any value: only a dict has the method. *)
Definition get (v : json) (key : string) (default : json) : result json :=
  match v with
  | JObj d => Ok (dict_get d key default)
  | _ => Raise AttributeError
  end.

(** [v.items()] on any value: only a dict has the method. *)
Definition items (v : json) : result (list (string * json)) :=
  match v with
  | JObj d => Ok d
  | _ => Raise AttributeError
  end.

(** [l[:k]] on a sequence: a negative bound counts from the end. *)
Definition slice_to {A : Type} (l : list A) (k : Z) : list A :=
  if (0 <=? k)%Z then firstn (Z.to_nat k) l
  else firstn (List.length l - Z.to_nat (- k)) l.

(** The exception of [d[:k]] on a dict depends on the interpreter: a slice
    cannot be hashed before Python 3.12 ([TypeError]) and is a missing key
    from 3.12 on ([KeyError]).  It is kept apart from both. *)
Definition dict_slice_error : exn := OtherException "TypeError or KeyError".

(** [v[:k]] on any value: lists and strings can be sliced (a string yields
    its characters when iterated); a dict raises [dict_slice_error] and
    anything else [TypeError]. *)
Definition getslice (v : json) (k : Z) : result (list json) :=
  match v with
  | JArr l => Ok (slice_to l k)
  | JStr s =>
      Ok (map (fun c => JStr (String c "")) (slice_to (list_ascii_of_string s) k))
  | JObj _ => Raise dict_slice_error
  | _ => Raise TypeError
  end.

(** [s.replace(old, new)] for one-character [old] and [new]. *)
Fixpoint replace_char (old new : ascii) (s : string) : string :=
  match s with
  | "" => ""
  | String c rest =>
      String (if Ascii.eqb c old then new else c) (replace_char old new rest)
  end.

Definition newline : ascii := "010"%char.
Definition space : ascii := " "%char.

(** [repr(s)] of a string: quoted, with the quote, the backslash and the
    characters that do not print escaped. *)
Fixpoint contains_char (c : ascii) (s : string) : bool :=
  match s with
  | "" => false
  | String c' rest => Ascii.eqb c c' || contains_char c rest
  end.

Definition hex_digit (n : N) : ascii :=
  match n with
  | 0%N => "0" | 1%N => "1" | 2%N => "2" | 3%N => "3" | 4%N => "4"
  | 5%N => "5" | 6%N => "6" | 7%N => "7" | 8%N => "8" | 9%N => "9"
  | 10%N => "a" | 11%N => "b" | 12%N => "c" | 13%N => "d" | 14%N => "e"
  | _ => "f"
  end%char.

Definition printable (c : ascii) : bool :=
  let n := N_of_ascii c in
  ((32 <=? n) && (n <? 127) || (161 <=? n) && negb (n =? 173))%N.

Definition escape_char (quote c : ascii) : string :=
  let n := N_of_ascii c in
  if Ascii.eqb c quote || Ascii.eqb c "\"%char then String "\"%char (String c "")
  else if (n =? 9)%N then "\t"
  else if (n =? 10)%N then "\n"
  else if (n =? 13)%N then "\r"
  else if printable c then String c ""
  else String "\"%char (String "x"%char
         (String (hex_digit (n / 16)) (String (hex_digit (n mod 16)) ""))).

Fixpoint escape (quote : ascii) (s : string) : string :=
  match s with
  | "" => ""
  | String c rest => escape_char quote c ++ escape quote rest
  end.

Definition single_quote : ascii := "'"%char.
Definition double_quote : ascii := ascii_of_nat 34.

Definition repr_str (s : string) : string :=
  let quote :=
    if contains_char single_quote s && negb (contains_char double_quote s)
    then double_quote else single_quote in
  String quote (escape quote s ++ String quote "").

(** [repr(n)] of an integer, in decimal.  From Python 3.11 on the
    interpreter refuses to convert an integer of more than 4300 digits
    ([ValueError], [sys.set_int_max_str_digits]), in [response.json()] as in
    an f-string; integers are taken to be within that limit. *)
Definition repr_int (n : Z) : string := NilZero.string_of_int (Z.to_int n).

(** [repr(v)] *)
Fixpoint repr (v : json) : string :=
  match v with
  | JNull => "None"
  | JBool true => "True"
  | JBool false => "False"
  | JInt n => repr_int n
  | JFloat r => r
  | JStr s => repr_str s
  | JArr l => "[" ++ String.concat ", " (map repr l) ++ "]"
  | JObj kvs =>
      "{" ++ String.concat ", "
               (map (fun kv => repr_str (fst kv) ++ ": " ++ repr (snd kv)) kvs)
          ++ "}"
  end.

(** [str(v)], which is what an f-string placeholder [{v}] inserts. *)
Definition str (v : json) : string :=
  match v with
  | JStr s => s
  | _ => repr v
  end.

(** [sep.join(l)]: every element has to be a string. *)
Fixpoint all_str (l : list json) : result (list string) :=
  match l with
  | [] => Ok []
  | JStr s :: rest => ss <- all_str rest ;; Ok (s :: ss)
  | _ :: _ => Raise TypeError
  end.

Definition join (sep : string) (l : list json) : result string :=
  ss <- all_str l ;; Ok (String.concat sep ss).

End Py.

(* ================================================================== *)
(** ** The search client: class [SerperAPI] *)

Module Serper.
Import Py.

Definition NO_RESULT_MSG : string := "No good Google Search result was found".

(** [Literal['news', 'search', 'places', 'images']] *)
Inductive SearchType : Type := news | search | places | images.

(** The fields [__init__] stores. *)
Record SerperAPI : Type := {
  serper_api_key : string;
  gl : string;
  hl : string;
  k : Z;
  tbs : option string;
  search_type : SearchType
}.

(** [self.result_key_for_type] *)
Definition result_key_for_type (t : SearchType) : string :=
  match t with
  | news => "news"
  | places => "places"
  | images => "images"
  | search => "organic"
  end.

(** The dicts [{'snippet': _, 'link': _, 'title': _}] the parser builds. *)
Record item : Type := {
  snippet : json;
  link : json;
  title : json
}.

(** *** [_parse_snippets_with_links]

    The method appends to [items] in three steps; each step is a function
    from the items so far to the items after it. *)

(** Lines 101-110: the answer box. *)
Definition answer_box_items (results : dict) (items : list item)
  : result (list item) :=
  if truthy (dict_get results "answerBox" JNull) then
    let answer_box := dict_get results "answerBox" (JObj []) in
    answer <- get answer_box "answer" JNull ;;
    snippet <- get answer_box "snippet" JNull ;;
    link <- get answer_box "link" (JStr "") ;;
    let items :=
      if truthy answer && isinstance_str answer
      then (items ++ [{| snippet := answer; link := link;
                        title := JStr "Answer Box" |}])%list
      else items in
    let items :=
      match snippet with
      | JStr s =>
          if truthy snippet
          then (items ++ [{| snippet := JStr (replace_char newline space s);
                            link := link; title := JStr "Answer Box" |}])%list
          else items
      | _ => items
      end in
    Ok items
  else Ok items.

(** Lines 112-126: the knowledge graph. *)
Definition knowledge_graph_items (results : dict) (items : list item)
  : result (list item) :=
  if truthy (dict_get results "knowledgeGraph" JNull) then
    let kg := dict_get results "knowledgeGraph" (JObj []) in
    title <- get kg "title" (JStr "") ;;
    entity_type <- get kg "type" JNull ;;
    description <- get kg "description" JNull ;;
    website <- get kg "website" (JStr "") ;;
    link <- get kg "descriptionLink" website ;;
    let items :=
      if truthy entity_type
      then (items ++ [{| snippet := JStr (str title ++ ": " ++ str entity_type ++ ".");
                        link := link; title := JStr "Knowledge Graph" |}])%list
      else items in
    let items :=
      if truthy description
      then (items ++ [{| snippet := description; link := link; title := title |}])%list
      else items in
    attributes <- get kg "attributes" (JObj []) ;;
    pairs <- Py.items attributes ;;
    Ok (items ++
        map (fun av =>
               {| snippet := JStr (str title ++ " " ++ fst av ++ ": "
                                     ++ str (snd av) ++ ".");
                  link := link; title := title |})
            pairs)%list
  else Ok items.

(** Lines 132-139: the body of the loop over the ranked results.  The test
    ['snippet' in result] is reached only when [result] is a dict, since
    [result.get] has raised otherwise. *)
Definition ranked_result_items (result : json) (items : list item)
  : Py.result (list item) :=
  title <- get result "title" (JStr "Search Result") ;;
  link <- get result "link" (JStr "") ;;
  let items :=
    match result with
    | JObj d =>
        match lookup d "snippet" with
        | Some s => (items ++ [{| snippet := s; link := link; title := title |}])%list
        | None => items
        end
    | _ => items
    end in
  attributes <- get result "attributes" (JObj []) ;;
  pairs <- Py.items attributes ;;
  Ok (items ++
      map (fun av =>
             {| snippet := JStr (fst av ++ ": " ++ str (snd av) ++ ".");
                link := link; title := title |})
          pairs)%list.

Fixpoint for_each_result (rs : list json) (items : list item)
  : result (list item) :=
  match rs with
  | [] => Ok items
  | r :: rest =>
      items <- ranked_result_items r items ;;
      for_each_result rest items
  end.

(** Lines 128-139: the ranked results of the configured type. *)
Definition ranked_items (self : SerperAPI) (results : dict) (items : list item)
  : result (list item) :=
  let result_key := result_key_for_type (search_type self) in
  match lookup results result_key with
  | Some ranked =>
      rs <- getslice ranked (k self) ;;
      for_each_result rs items
  | None => Ok items
  end.

(** Lines 99-139: everything before the test [if not items]. *)
Definition extract_items (self : SerperAPI) (results : dict)
  : result (list item) :=
  items <- answer_box_items results [] ;;
  items <- knowledge_graph_items results items ;;
  ranked_items self results items.

Definition no_result_item : item :=
  {| snippet := JStr NO_RESULT_MSG; link := JStr ""; title := JStr "No Result" |}.

(** The whole method.  [results] is whatever [response.json()] returned;
    the first statement calls [results.get], which only a dict has. *)
Definition _parse_snippets_with_links (self : SerperAPI) (results : json)
  : result (list item) :=
  match results with
  | JObj d =>
      items <- extract_items self d ;;
      match items with
      | [] => Ok [no_result_item]
      | _ :: _ => Ok items
      end
  | _ => Raise AttributeError
  end.

(** *** [_parse_snippets] *)
Definition _parse_snippets (self : SerperAPI) (results : json)
  : result (list json) :=
  items <- _parse_snippets_with_links self results ;;
  Ok (map snippet items).

(** *** [_parse_results] *)

(** One pass of the loop: the text appended to [formatted]. *)
Definition format_item (it : item) : json :=
  if truthy (link it)
  then JStr (str (snippet it) ++ " [Source: " ++ str (link it) ++ "]")
  else snippet it.

Definition format_items (items : list item) : result string :=
  join " " (map format_item items).

Definition _parse_results (self : SerperAPI) (results : json) : result string :=
  items <- _parse_snippets_with_links self results ;;
  format_items items.

(** *** [_google_serper_api_results]

    The HTTP library and the random generator are the environment of the
    call.  A [requests.Response] is read through three members: its truth
    value, which is [Response.ok] and is false exactly for a status from 400
    to 599; [raise_for_status()]; and [json()]. *)

Record Response : Type := {
  status_code : Z;
  json_body : option json      (* [None]: the body is not JSON *)
}.

Definition is_error_status (code : Z) : bool :=
  ((400 <=? code) && (code <? 600))%Z.

(** [bool(response)] *)
Definition ok (r : Response) : bool := negb (is_error_status (status_code r)).

Definition raise_for_status (r : Response) : result unit :=
  if is_error_status (status_code r) then Raise HTTPError else Ok tt.

Definition response_json (r : Response) : result json :=
  match json_body r with
  | Some j => Ok j
  | None => Raise JSONDecodeError
  end.

Definition _SERPER_URL : string := "https://google.serper.dev".

(** The arguments of [requests.post], lines 75-78. *)
Record Request : Type := {
  url : string;
  headers : list (string * string);
  params : list (string * json);
  timeout : Z
}.

(** What one call of [requests.post] does. *)
Inductive post_outcome : Type :=
| Responds (r : Response)
| RaisesAssertionError
| RaisesException (name : string).   (* ConnectionError, Timeout, ... *)

(** The environment: the outcome of the n-th request and the n-th value that
    [random.uniform(1, 3)] returns, both counted from 0. *)
Record Backend : Type := {
  post : nat -> Request -> post_outcome;
  uniform_1_3 : nat -> Q
}.

(** The variables of the loop and what the call has done so far. *)
Record LoopState : Type := {
  response : option Response;
  num_fails : Z;
  sleep_time : Q;
  requests : nat;          (* calls of [requests.post] *)
  slept : list Q;          (* arguments of [time.sleep], oldest first *)
  drawn : nat              (* calls of [random.uniform] *)
}.

(** Line 69 *)
Definition initial : LoopState :=
  {| response := None; num_fails := 0; sleep_time := 0;
     requests := 0; slept := []; drawn := 0 |}.

(** [not response], for [None] or a [Response]. *)
Definition not_response (s : LoopState) : bool :=
  match response s with
  | None => true
  | Some r => negb (ok r)
  end.

(** [min(a, b)] *)
Definition py_min (a b : Q) : Q := if Qle_bool a b then a else b.

Inductive control : Type :=
| Next (s : LoopState)
| Throw (e : exn) (s : LoopState).

(** Lines 74-88: one pass through the body of the loop. *)
Definition attempt (w : Backend) (request : Request) (s : LoopState)
  : control :=
  match post w (requests s) request with
  | Responds r =>
      Next {| response := Some r; num_fails := num_fails s;
              sleep_time := sleep_time s; requests := S (requests s);
              slept := slept s; drawn := drawn s |}
  | RaisesAssertionError =>
      Throw AssertionError
            {| response := response s; num_fails := num_fails s;
               sleep_time := sleep_time s; requests := S (requests s);
               slept := slept s; drawn := drawn s |}
  | RaisesException _ =>
      let doubled := py_min (sleep_time s * (2 # 1)) (10 # 1) in
      let redraw := Qeq_bool doubled 0 in
      let sleep := if redraw then uniform_1_3 w (drawn s) else doubled in
      Next {| response := None; num_fails := num_fails s + 1;
              sleep_time := sleep; requests := S (requests s);
              slept := (slept s ++ [sleep])%list;
              drawn := if redraw then S (drawn s) else drawn s |}
  end.

(** How a bounded run of the loop ends. *)
Inductive loop_end : Type :=
| Exited                 (* the condition of the [while] became false *)
| Thrown (e : exn)       (* an exception left the loop *)
| StillRunning.          (* the condition still holds after [fuel] passes *)

(** Line 73 *)
Definition loop_condition (max_retries : Z) (s : LoopState) : bool :=
  not_response s && (num_fails s <? max_retries)%Z.

Fixpoint retry_loop (fuel : nat) (w : Backend) (request : Request)
    (max_retries : Z) (s : LoopState) : loop_end * LoopState :=
  if loop_condition max_retries s then
    match fuel with
    | O => (StillRunning, s)
    | S fuel' =>
        match attempt w request s with
        | Next s' => retry_loop fuel' w request max_retries s'
        | Throw e s' => (Thrown e, s')
        end
    end
  else (Exited, s).

(** How a bounded run of a call ends. *)
Inductive outcome (A : Type) : Type :=
| Returns (a : A)
| Raises (e : exn)
| Unfinished.

Arguments Returns {A} a.
Arguments Raises {A} e.
Arguments Unfinished {A}.

Definition of_result {A : Type} (r : result A) : outcome A :=
  match r with
  | Ok a => Returns a
  | Raise e => Raises e
  end.

Definition default_max_retries : Z := 3.

(** [value is not None] *)
Definition is_not_None (v : json) : bool :=
  match v with
  | JNull => false
  | _ => true
  end.

(** Lines 61-95.  [kwargs] are the keyword arguments other than
    [search_type] and [max_retries]. *)
Definition _google_serper_api_results
    (fuel : nat) (w : Backend) (self : SerperAPI)
    (search_term : string) (search_type : string) (max_retries : Z)
    (kwargs : list (string * json)) : outcome json * LoopState :=
  let headers := [("X-API-KEY", serper_api_key self);
                  ("Content-Type", "application/json")] in
  let params :=
    ("q", JStr search_term)
      :: filter (fun kv => is_not_None (snd kv)) kwargs in
  let request :=
    {| url := _SERPER_URL ++ "/" ++ search_type; headers := headers;
       params := params; timeout := 30 |} in
  match retry_loop fuel w request max_retries initial with
  | (Exited, s) =>
      match response s with
      | Some r =>
          if ok r
          then (of_result (_ <- raise_for_status r ;; response_json r), s)
          else (Raises ValueError, s)
      | None => (Raises ValueError, s)
      end
  | (Thrown e, s) => (Raises e, s)
  | (StillRunning, s) => (Unfinished, s)
  end.

(** *** [run]

    The [assert] is executed (the interpreter does not run with [-O]);
    [max_retries] is 3 unless the caller passes it among the [kwargs]. *)
Definition search_type_name (t : SearchType) : string :=
  match t with
  | news => "news"
  | search => "search"
  | places => "places"
  | images => "images"
  end.

Definition run_kwargs (self : SerperAPI) : list (string * json) :=
  [("gl", JStr (gl self)); ("hl", JStr (hl self)); ("num", JInt (k self));
   ("tbs", match tbs self with Some t => JStr t | None => JNull end)].

Definition run (fuel : nat) (w : Backend) (self : SerperAPI) (query : string)
    (max_retries : Z) : outcome string * LoopState :=
  if (serper_api_key self =? "")%string then (Raises AssertionError, initial)
  else
    match _google_serper_api_results fuel w self query
            (search_type_name (search_type self)) max_retries
            (run_kwargs self) with
    | (Returns results, s) => (of_result (_parse_results self results), s)
    | (Raises e, s) => (Raises e, s)
    | (Unfinished, s) => (Unfinished, s)
    end.

End Serper.

(* ================================================================== *)
(** ** Reading the citations back: [app.py], lines 233-238 *)

Module Citation.

(** [source_pattern = r'\[Source: (https?://[^\]]+)\]'], matched the way
    [re] does: left to right, greedy, backtracking. *)

Fixpoint strip_prefix (p s : string) : option string :=
  match p, s with
  | "", _ => Some s
  | String a p', String b s' => if Ascii.eqb a b then strip_prefix p' s' else None
  | String _ _, "" => None
  end.

Definition rbracket : ascii := "]"%char.
Definition lbracket : ascii := "["%char.

(** The longest run of characters other than [rbracket] at the start of [s],
    and what follows it. *)
Fixpoint span_url (s : string) : string * string :=
  match s with
  | "" => ("", "")
  | String c rest =>
      if Ascii.eqb c rbracket then ("", s)
      else let (run, after) := span_url rest in (String c run, after)
  end.

(** [://[^\]]+\]] at the start of [s]: the text before the closing bracket
    and the text after it.  The class takes the longest run; giving
    characters back cannot help, since the next one is then not a closing
    bracket. *)
Definition match_rest (s : string) : option (string * string) :=
  match strip_prefix "://" s with
  | Some t =>
      match span_url t with
      | (String c run, String _ after) => Some ("://" ++ String c run, after)
      | _ => None
      end
  | None => None
  end.

(** The literal text every match starts with. *)
Definition opening : string := "[Source: http".

(** The whole pattern at the start of [s]: group 1 and the text after the
    match.  [s?] first tries to take the [s]. *)
Definition match_here (s : string) : option (string * string) :=
  match strip_prefix opening s with
  | Some t =>
      let with_s :=
        match strip_prefix "s" t with
        | Some t' =>
            match match_rest t' with
            | Some (u, after) => Some ("https" ++ u, after)
            | None => None
            end
        | None => None
        end in
      match with_s with
      | Some m => Some m
      | None =>
          match match_rest t with
          | Some (u, after) => Some ("http" ++ u, after)
          | None => None
          end
      end
  | None => None
  end.

(** [re.findall]: the scan resumes after a match, or one character on.
    Each pass consumes a character, so [length s] passes are enough. *)
Fixpoint findall_from (fuel : nat) (s : string) : list string :=
  match fuel, s with
  | S fuel', String c rest =>
      match match_here s with
      | Some (u, after) => u :: findall_from fuel' after
      | None => findall_from fuel' rest
      end
  | _, _ => []
  end.

Definition findall (s : string) : list string := findall_from (length s) s.

(** [re.sub(source_pattern, '', s)] *)
Fixpoint sub_from (fuel : nat) (s : string) : string :=
  match fuel, s with
  | S fuel', String c rest =>
      match match_here s with
      | Some (_, after) => sub_from fuel' after
      | None => String c (sub_from fuel' rest)
      end
  | _, _ => ""
  end.

Definition sub (s : string) : string := sub_from (length s) s.

(** [str.strip()] *)
Definition isspace (c : ascii) : bool :=
  let n := N_of_ascii c in
  ((9 <=? n) && (n <=? 13) || (28 <=? n) && (n <=? 32)
   || (n =? 133) || (n =? 160))%N.

Fixpoint lstrip (s : string) : string :=
  match s with
  | "" => ""
  | String c rest => if isspace c then lstrip rest else s
  end.

Fixpoint rstrip (s : string) : string :=
  match s with
  | "" => ""
  | String c rest =>
      match rstrip rest with
      | "" => if isspace c then "" else String c ""
      | kept => String c kept
      end
  end.

Definition strip (s : string) : string := rstrip (lstrip s).

(** Line 235 *)
Definition sources (result_text : string) : list string := findall result_text.

(** Line 238 *)
Definition clean_text (result_text : string) : string := strip (sub result_text).

(** The marker the serialiser writes for a link. *)
Definition marker (url : string) : string := "[Source: " ++ url ++ "]".

(** A text as the serialiser lays it out: prose, then markers each followed
    by prose. *)
Fixpoint weave (prose : string) (segments : list (string * string)) : string :=
  match segments with
  | [] => prose
  | (url, after) :: rest => prose ++ marker url ++ weave after rest
  end.

(** [needle in hay] *)
Fixpoint occurs (needle hay : string) : bool :=
  match strip_prefix needle hay with
  | Some _ => true
  | None =>
      match hay with
      | "" => false
      | String _ rest => occurs needle rest
      end
  end.

(** What can follow a piece of prose in a text laid out by [weave]: nothing,
    or a marker. *)
Definition boundary (t : string) : Prop :=
  t = "" \/ exists t', t = String lbracket t'.

Fixpoint no_char (c : ascii) (s : string) : bool :=
  match s with
  | "" => true
  | String c' rest => negb (Ascii.eqb c c') && no_char c rest
  end.

(** [https?://[^\]]+]: the scheme, then at least one character, none of
    them a closing bracket. *)
Definition is_url (u : string) : bool :=
  match strip_prefix "http://" u, strip_prefix "https://" u with
  | Some (String c t), _ | None, Some (String c t) => no_char rbracket (String c t)
  | _, _ => false
  end.

End Citation.

(* ================================================================== *)
(** ** The verification loop: [verify_atomic_claim] *)

Module Orchestrator.

(** Modelled from the spec: the data model of a run.  The repository calls
    [verify_atomic_claim] but the file that defines it,
    [eval/fire/verify_atomic_claim.py], is not part of the sources; the
    records follow section 3 of the specification. *)
Inductive Answer : Type := TRUE | FALSE.

Record Verdict : Type := {
  answer : Answer;
  full_response : string
}.

Record Usage : Type := {
  input_tokens : nat;
  output_tokens : nat
}.

Record EvidenceItem : Type := {
  snippet : string;
  source : option string;
  title : string
}.

Record SearchBatch : Type := {
  query : string;
  items : list EvidenceItem;
  serialized_text : string
}.

Definition add_usage (a b : Usage) : Usage :=
  {| input_tokens := (input_tokens a + input_tokens b)%nat;
     output_tokens := (output_tokens a + output_tokens b)%nat |}.

Definition no_usage : Usage := {| input_tokens := 0%nat; output_tokens := 0%nat |}.

(** Modelled from the spec: the reply of the LLM Reasoning Client, section
    4.2, and the instruction a call carries, section 4.1. *)
Inductive Decision : Type :=
| SEARCH (q : string)
| FINALIZE (a : Answer) (full_text : string)
| UNPARSEABLE.

Inductive Instruction : Type :=
| Plain
| Use_required_grammar
| Finalize_now.

(** Modelled from the spec: the two collaborators of the Orchestrator.  Both
    answer differently from one call to the next, so each takes the number
    of the call.  A search that exhausts its retries
    ([ProviderExhaustedError]) is [None]. *)
Record Providers : Type := {
  decide : nat -> Instruction -> string -> list SearchBatch -> Decision * Usage;
  search : nat -> string -> option SearchBatch
}.

(** Modelled from the spec: the states of section 4.1 and the Run State of
    section 3. *)
Inductive Phase : Type :=
| INIT
| AWAITING_DECISION
| SEARCHING (q : string)
| DONE (v : Verdict)
| FAILED.

Record Run : Type := {
  claim : string;
  batches : list SearchBatch;
  iteration : nat;           (* LLM calls made *)
  usage : Usage;
  phase : Phase
}.


Definition goto (ph : Phase) (r : Run) : Run :=
  {| claim := claim r; batches := batches r; iteration := iteration r;
     usage := usage r; phase := ph |}.

(** Modelled from the spec: one LLM call; its usage is added and the
    iteration count goes up by one, whatever the reply. *)
Definition ask (p : Providers) (i : Instruction) (r : Run) : Decision * Run :=
  let (d, u) := decide p (iteration r) i (claim r) (batches r) in
  (d, {| claim := claim r; batches := batches r; iteration := S (iteration r);
         usage := add_usage (usage r) u; phase := phase r |}).

(** Modelled from the spec: the failures that arise inside a run.  The first
    two are those of section 7: the Search Provider Client raises
    [ProviderExhaustedError] when its retries are used up, and an LLM reply
    that matches neither marker is a [MalformedResponseError].  The third is
    the iteration budget of section 4.1 with no LLM call left. *)
Inductive Failure : Type :=
| ProviderExhaustedError
| MalformedResponseError
| BudgetExhausted.

(** Modelled from the spec: what one transition does.  It moves the run on,
    or a failure is raised in it; the Run State that comes with the failure
    is what had been accumulated when it was raised. *)
Inductive Outcome : Type :=
| Continues (r : Run)
| Raised (e : Failure) (r : Run).

Definition conclude (d : Decision) (r : Run) : Outcome :=
  match d with
  | SEARCH q => Continues (goto (SEARCHING q) r)
  | FINALIZE a t => Continues (goto (DONE {| answer := a; full_response := t |}) r)
  | UNPARSEABLE => Raised MalformedResponseError r
  end.

(** Modelled from the spec: one transition of the state machine of section
    4.1, before failures are handled.  [max_llm_calls] is the iteration
    budget; the call that uses the last of it carries the instruction to
    finalize, and a run that has no call left fails.  An unparseable reply
    is followed by one re-prompt. *)
Definition transition (p : Providers) (max_llm_calls : nat) (r : Run) : Outcome :=
  match phase r with
  | INIT => Continues (goto AWAITING_DECISION r)
  | AWAITING_DECISION =>
      if (max_llm_calls <=? iteration r)%nat then Raised BudgetExhausted r
      else if (S (iteration r) =? max_llm_calls)%nat then
        let (d, r1) := ask p Finalize_now r in
        match d with
        | FINALIZE _ _ => conclude d r1
        | _ => Raised MalformedResponseError r1
        end
      else
        let (d, r1) := ask p Plain r in
        match d with
        | UNPARSEABLE =>
            let (d2, r2) := ask p Use_required_grammar r1 in conclude d2 r2
        | _ => conclude d r1
        end
  | SEARCHING q =>
      match search p (List.length (batches r)) q with
      | Some b =>
          Continues
            {| claim := claim r; batches := (batches r ++ [b])%list;
               iteration := iteration r; usage := usage r;
               phase := AWAITING_DECISION |}
      | None => Raised ProviderExhaustedError r
      end
  | DONE _ | FAILED => Continues r
  end.

(** Modelled from the spec: the propagation policy of section 7.  A failure
    raised in a transition is resolved to the terminal status [FAILED], and
    the Run State keeps what the failure came with. *)
Definition step (p : Providers) (max_llm_calls : nat) (r : Run) : Run :=
  match transition p max_llm_calls r with
  | Continues r' => r'
  | Raised _ r' => goto FAILED r'
  end.

Fixpoint steps (n : nat) (p : Providers) (max_llm_calls : nat) (r : Run) : Run :=
  match n with
  | O => r
  | S n' => steps n' p max_llm_calls (step p max_llm_calls r)
  end.

Definition start (claim : string) : Run :=
  {| claim := claim; batches := []; iteration := 0%nat; usage := no_usage;
     phase := INIT |}.

Definition default_max_llm_calls : nat := 5%nat.

Definition verdict_of (r : Run) : option Verdict :=
  match phase r with
  | DONE v => Some v
  | _ => None
  end.

(** Modelled from the spec: the public contract of section 4.1,
    [verify(claim, model_config) -> (Verdict | null, Search Batches, Usage)].
    Every transition either makes an LLM call or follows one, so
    [2 * max_llm_calls + 2] transitions finish the run. *)
Definition verify (p : Providers) (max_llm_calls : nat) (claim : string)
  : option Verdict * list SearchBatch * Usage :=
  let r := steps (2 * max_llm_calls + 2)%nat p max_llm_calls (start claim) in
  (verdict_of r, batches r, usage r).



End Orchestrator.

(* ================================================================== *)
(** ** What the specification expects, in its own words

    These definitions restate sentences of the specification; the theorems
    below compare them with the code above. *)

Module Expected.
Import Py Serper.

Definition answer_box_item (text : string) (link : json) : item :=
  {| snippet := JStr text; link := link; title := JStr "Answer Box" |}.

(** "Answer-box direct answer, if present, as one item titled Answer Box;
    answer-box snippet, if present, with each newline turned into a space,
    as a second Answer Box item": present means a non-empty string. *)
Definition answer_box (answer snippet link : json) : list item :=
  (match answer with
   | JStr (String c a) => [answer_box_item (String c a) link]
   | _ => []
   end ++
   match snippet with
   | JStr (String c s) =>
       [answer_box_item (replace_char newline space (String c s)) link]
   | _ => []
   end)%list.

(** "Concatenate each item's snippet text; immediately append
    [ [Source: <url>]] after any item that carries a link." *)
Definition citation (it : item) : string :=
  str (snippet it) ++
  (if truthy (link it) then " [Source: " ++ str (link it) ++ "]" else "").

(** "Join all items with a single space." *)
Definition serialized_text (items : list item) : string :=
  String.concat " " (map citation items).

(** The number of attributes a ranked result lists. *)
Definition attribute_count (result : json) : nat :=
  match get result "attributes" (JObj []) with
  | Ok (JObj attributes) => List.length attributes
  | _ => 0%nat
  end.

(** "Backoff delay ... doubles each subsequent attempt up to a 10s
    ceiling": every delay after [previous] is the double of the one before
    it, or 10 when that is less. *)
Fixpoint backoff (previous : Q) (delays : list Q) : Prop :=
  match delays with
  | [] => True
  | d :: rest =>
      (d == py_min (previous * (2 # 1)) (10 # 1))%Q /\ backoff d rest
  end.

(** The links the items of a batch carry, in order. *)
Definition links (items : list item) : list string :=
  flat_map (fun it => if truthy (link it) then [str (link it)] else []) items.

(** An item whose snippet is text without an opening bracket and whose link
    is empty or a URL the pattern accepts. *)
Definition plain_item (it : item) : bool :=
  match snippet it, link it with
  | JStr s, JStr l =>
      Citation.no_char Citation.lbracket s
      && ((l =? "")%string || Citation.is_url l)
  | _, _ => false
  end.

(** "For evidence text containing N distinct [Source: url_i] markers,
    citation extraction recovers exactly those N distinct URLs, and the
    stripped prose contains zero bracket markers."  The text is given by its
    layout: the prose before the first marker, then each URL with the prose
    after its marker. *)
Definition round_trip (prose : string) (segments : list (string * string))
  : Prop :=
  let text := Citation.weave prose segments in
  Citation.sources text = map fst segments /\
  Citation.sources (Citation.clean_text text) = [].

End Expected.

(* ================================================================== *)
(** ** Concrete clients and responses used in the examples *)

Module Examples.
Import Py Serper.

(** The client with the defaults of [__init__] and a key. *)
Definition client : SerperAPI :=
  {| serper_api_key := "key"; gl := "us"; hl := "en"; k := 1; tbs := None;
     search_type := search |}.

Definition client_without_key : SerperAPI :=
  {| serper_api_key := ""; gl := "us"; hl := "en"; k := 1; tbs := None;
     search_type := search |}.

(** One ranked result with a snippet and one attribute. *)
Definition attributed_response : dict :=
  [("organic",
    JArr [JObj [("title", JStr "T"); ("link", JStr "https://t");
                ("snippet", JStr "s");
                ("attributes", JObj [("a", JStr "1")])]])].

(** Scenario C of the specification. *)
Definition scenario_c : dict :=
  [("answerBox", JObj [("answer", JStr "Paris"); ("link", JStr "https://x")])].

(** An answer box whose snippet repeats its answer. *)
Definition repeated_answer : dict :=
  [("answerBox", JObj [("answer", JStr "Paris"); ("snippet", JStr "Paris")])].

(** An answer box whose answer is a number. *)
Definition numeric_answer : dict :=
  [("answerBox", JObj [("answer", JInt 42); ("snippet", JStr "forty-two")])].

(** A snippet that quotes a marker in the middle of another one. *)
Definition nested_marker_response : dict :=
  [("answerBox",
    JObj [("answer", JStr "[Source: h[Source: http://a]ttp://b]")])].

(** Backends. *)
Definition paris : Response :=
  {| status_code := 200; json_body := Some (JObj scenario_c) |}.

Definition answers_at_once : Backend :=
  {| post := fun _ _ => Responds paris; uniform_1_3 := fun _ => 2 # 1 |}.

Definition answers_after_a_timeout : Backend :=
  {| post := fun n _ => match n with
                        | O => RaisesException "Timeout"
                        | _ => Responds paris
                        end;
     uniform_1_3 := fun _ => 3 # 2 |}.

(** A backend that answers every request with status 500. *)
Definition server_error : Response :=
  {| status_code := 500; json_body := None |}.

Definition always_fails (uniform : nat -> Q) : Backend :=
  {| post := fun _ _ => Responds server_error; uniform_1_3 := uniform |}.

Definition always_assertion : Backend :=
  {| post := fun _ _ => RaisesAssertionError; uniform_1_3 := fun _ => 2 # 1 |}.

Definition always_times_out : Backend :=
  {| post := fun _ _ => RaisesException "Timeout";
     uniform_1_3 := fun _ => 3 # 2 |}.




End Examples.

(* ================================================================== *)
(** * The callers of the client and of the verification

    [app.py] outside the citation pattern, the batch script
    [test_gemini.py], the request [run] puts on the wire, and what the retry
    loop keeps invariant. *)
(** ** The web app: [app.py] outside the citation pattern *)

Module App.
Import Py.

(** Lines 138-139: the claim the form hands to the verification, if any.
    [st.text_area] returns a [str]; [str.strip] is [Citation.strip]. *)
Definition submitted_claim (submit_button : bool) (claim_input : string)
  : option string :=
  if submit_button && truthy (JStr (Citation.strip claim_input))
  then Some (Citation.strip claim_input)
  else None.

(** Lines 254-260: the dict appended to [st.session_state.history] after a
    verification that returned a result.  [elapsed_time] is a float. *)
Definition history_entry (claim answer : string) (num_searches : Z)
    (elapsed_time : string) : json :=
  JObj [("claim", JStr claim); ("result", JStr answer);
        ("searches", JInt num_searches); ("time", JFloat elapsed_time);
        ("correct", JNull)].

(** Line 107 *)
Definition total_claims (history : list json) : Z :=
  Z.of_nat (List.length history).

(** Line 108: [sum(1 for h in history if h.get('correct', False))] *)
Fixpoint correct (history : list json) : result Z :=
  match history with
  | [] => Ok 0
  | h :: rest =>
      c <- get h "correct" (JBool false) ;;
      n <- correct rest ;;
      Ok (if truthy c then 1 + n else n)
  end.

End App.

(* ================================================================== *)
(** ** The batch script: [test_gemini.py], lines 37-100 *)

Module Batch.
Import Py.

(** The token counts [verify_atomic_claim] reports. *)
Record Usage : Type := {
  input_tokens : Z;
  output_tokens : Z
}.

(** [d[key]] on any value: a missing key raises [KeyError]; only a dict can
    be indexed by a string. *)
Definition getitem (v : json) (key : string) : result json :=
  match v with
  | JObj d =>
      match lookup d key with
      | Some x => Ok x
      | None => Raise (OtherException "KeyError")
      end
  | _ => Raise TypeError
  end.

Definition num_samples : Z := 3.

Section Script.

(** The result object and the searches dict of [verify_atomic_claim], which
    the script only passes on. *)
Variables Result Searches : Type.

(** [json.loads] *)
Variable loads : string -> result json.

(** [verify_atomic_claim(claim, rater)], the n-th call of the run. *)
Variable verify_atomic_claim :
  nat -> json -> option Result * Searches * option Usage.

(** A line written to the output file, before [json.dumps]. *)
Record Written : Type := {
  claim : json;
  label : json;
  result : Result;
  searches : Searches
}.

(** The variables of the script and what it has done. *)
Record State : Type := {
  failed_cnt : Z;
  total_usage : Usage;
  written : list Written;
  slept : list Z;       (* arguments of [time.sleep] *)
  calls : nat           (* calls of [verify_atomic_claim] *)
}.

(** Lines 38-43 *)
Definition start : State :=
  {| failed_cnt := 0;
     total_usage := {| input_tokens := 0; output_tokens := 0 |};
     written := []; slept := []; calls := 0 |}.

(** Lines 54-87: the body of the loop.  [label.lower()] needs a [str]. *)
Definition process_line (st : State) (line : string) : Py.result State :=
  data <- loads line ;;
  claim <- getitem data "claim" ;;
  label <- getitem data "label" ;;
  let '(result, searches, usage) := verify_atomic_claim (calls st) claim in
  let total :=
    match usage with
    | Some u =>
        {| input_tokens := input_tokens (total_usage st) + input_tokens u;
           output_tokens := output_tokens (total_usage st) + output_tokens u |}
    | None => total_usage st
    end in
  match result with
  | None =>
      Ok {| failed_cnt := failed_cnt st + 1; total_usage := total;
            written := written st; slept := slept st; calls := S (calls st) |}
  | Some r =>
      if isinstance_str label
      then Ok {| failed_cnt := failed_cnt st; total_usage := total;
                 written := (written st ++ [{| claim := claim; label := label;
                                               result := r;
                                               searches := searches |}])%list;
                 slept := (slept st ++ [30])%list; calls := S (calls st) |}
      else Raise AttributeError
  end.

(** Lines 53-87: the loop. *)
Fixpoint process (st : State) (lines : list string) : Py.result State :=
  match lines with
  | [] => Ok st
  | line :: rest => st' <- process_line st line ;; process st' rest
  end.

(** Lines 50-87, with [lines] what [readlines()] returned. *)
Definition run_script (lines : list string) : Py.result State :=
  process start (slice_to lines num_samples).

(** Lines 93-95: the counts the summary prints. *)
Definition reported_total (st : State) : Z := num_samples.
Definition reported_successes (st : State) : Z := num_samples - failed_cnt st.

End Script.

Arguments failed_cnt {Result Searches} s.
Arguments total_usage {Result Searches} s.
Arguments written {Result Searches} s.
Arguments slept {Result Searches} s.
Arguments calls {Result Searches} s.
Arguments reported_total {Result Searches} st.
Arguments reported_successes {Result Searches} st.

End Batch.

(* ================================================================== *)
(** ** The request on the wire *)

Module Wire.
Import Py Serper.

(** The request a call of [run] sends, written out: lines 41-48 and 61-78. *)
Definition run_request (self : SerperAPI) (query : string) : Request :=
  {| url := "https://google.serper.dev/" ++ search_type_name (search_type self);
     headers := [("X-API-KEY", serper_api_key self);
                 ("Content-Type", "application/json")];
     params := ([("q", JStr query); ("gl", JStr (gl self));
                 ("hl", JStr (hl self)); ("num", JInt (k self))]
                ++ match tbs self with
                   | Some t => [("tbs", JStr t)]
                   | None => []
                   end)%list;
     timeout := 30 |}.

(** The backend [w] as seen by a caller that only ever sends [request]. *)
Definition replay (w : Backend) (request : Request) : Backend :=
  {| post := fun n _ => post w n request; uniform_1_3 := uniform_1_3 w |}.

End Wire.

(* ================================================================== *)
(** ** Invariants of the retry loop *)

Module Invariants.
Import Py Serper.

(** A delay the loop can sleep. *)
Definition in_window (d : Q) : Prop := (1 <= d <= 10)%Q.

(** What the variables of the retry loop keep between two passes, whatever
    the backend does. *)
Definition retry_invariant (max_retries : Z) (s : LoopState) : Prop :=
  Z.of_nat (List.length (slept s)) = num_fails s /\
  0 <= num_fails s <= Z.max 0 max_retries /\
  num_fails s <= Z.of_nat (requests s) /\
  Forall in_window (slept s) /\
  ((num_fails s = 0 /\ sleep_time s = 0%Q /\ drawn s = 0%nat) \/
   (0 < num_fails s /\ in_window (sleep_time s) /\ drawn s = 1%nat)).

(** The loop variable [response] holds nothing or a response that is true
    as a condition. *)
Definition no_error_response (s : LoopState) : Prop :=
  response s = None \/ exists r, response s = Some r /\ ok r = true.

End Invariants.

(* ================================================================== *)
(** ** Further concrete inputs *)

Module Cases.
Import Py Serper.

(** A knowledge graph whose [descriptionLink] is present but empty, beside a
    [website]. *)
Definition graph_response : dict :=
  [("knowledgeGraph",
    JObj [("title", JStr "Paris"); ("type", JStr "Capital of France");
          ("description", JStr "Paris is the capital.");
          ("descriptionLink", JStr ""); ("website", JStr "https://paris.fr");
          ("attributes", JObj [("Area", JStr "105 km2")])])].

(** The knowledge graph is a text. *)
Definition text_graph_response : dict :=
  [("answerBox", JObj [("answer", JStr "Paris")]);
   ("knowledgeGraph", JStr "Paris")].

(** Two items with the same link, as a ranked result with one attribute
    gives them. *)
Definition linked_items : list item :=
  [{| snippet := JStr "s"; link := JStr "https://t"; title := JStr "T" |};
   {| snippet := JStr "a: 1."; link := JStr "https://t"; title := JStr "T" |}].

(** A ranked result whose snippet is a number and that has no link. *)
Definition numeric_snippet_response : dict :=
  [("organic", JArr [JObj [("snippet", JInt 3)]])].

(** Ranked results without links. *)
Definition unlinked_response : dict :=
  [("organic", JArr [JObj [("snippet", JStr "first")];
                     JObj [("snippet", JStr "second")]])].

(** A client that reads no ranked result. *)
Definition client_top_0 : SerperAPI :=
  {| serper_api_key := "key"; gl := "us"; hl := "en"; k := 0; tbs := None;
     search_type := search |}.

Definition client_top_2 : SerperAPI :=
  {| serper_api_key := "key"; gl := "us"; hl := "en"; k := 2; tbs := None;
     search_type := search |}.

(** A history of two verifications. *)
Definition two_verifications : list json :=
  [App.history_entry "Paris is the capital of France" "TRUE" 1 "2.5";
   App.history_entry "The Moon is made of cheese" "FALSE" 2 "4.0"].

(** A data file of one line, a parser that accepts it, and a verification
    that succeeds. *)
Definition one_line : list string := ["line"].

Definition loads_one (line : string) : result json :=
  Ok (JObj [("claim", JStr "c"); ("label", JStr "True")]).

Definition verifies (n : nat) (claim : json)
  : option string * unit * option Batch.Usage :=
  (Some "True", tt,
   Some {| Batch.input_tokens := 10; Batch.output_tokens := 2 |}).

End Cases.

(* ================================================================== *)
(** * Properties *)

(** ** Strings *)

Section Strings.

Lemma append_empty_r (s : string) : s ++ "" = s.
Proof. induction s as [|c s IH]; cbn; [reflexivity | now rewrite IH]. Qed.

Lemma append_assoc (a b c : string) : (a ++ b) ++ c = a ++ (b ++ c).
Proof. induction a as [|x a IH]; cbn; [reflexivity | now rewrite IH]. Qed.

Lemma length_append (a b : string) :
  String.length (a ++ b) = (String.length a + String.length b)%nat.
Proof. induction a as [|x a IH]; cbn; [reflexivity | now rewrite IH]. Qed.


End Strings.

(** ** Extraction and serialisation *)

Section Parser.
Import Py Serper.

Lemma answer_box_items_eq (results ab : dict) (items : list item) :
  lookup results "answerBox" = Some (JObj ab) ->
  answer_box_items results items =
  Ok (items ++ Expected.answer_box (dict_get ab "answer" JNull)
                                   (dict_get ab "snippet" JNull)
                                   (dict_get ab "link" (JStr "")))%list.
Proof.
  intros Hbox. unfold answer_box_items, dict_get. rewrite Hbox.
  destruct ab as [|kv ab'].
  - simpl. now rewrite app_nil_r.
  - cbn [truthy get bind]. fold (dict_get (kv :: ab') "answer" JNull).
    fold (dict_get (kv :: ab') "snippet" JNull).
    fold (dict_get (kv :: ab') "link" (JStr "")).
    generalize (dict_get (kv :: ab') "link" (JStr "")) as link.
    generalize (dict_get (kv :: ab') "snippet" JNull) as snip.
    generalize (dict_get (kv :: ab') "answer" JNull) as ans.
    intros ans snip link. unfold Expected.answer_box, Expected.answer_box_item.
    destruct ans as [| | | |[|c a]| |]; destruct snip as [| | | |[|c' s]| |];
      cbn; rewrite ?andb_false_r, ?app_nil_r, <- ?app_assoc; reflexivity.
Qed.


Lemma knowledge_graph_items_app (results : dict) (items out : list item) :
  knowledge_graph_items results items = Ok out ->
  exists graph, out = (items ++ graph)%list.
Proof.
  unfold knowledge_graph_items.
  destruct (truthy (dict_get results "knowledgeGraph" JNull)).
  - destruct (dict_get results "knowledgeGraph" (JObj [])) as [| | | | | |kg];
      try discriminate.
    cbn [get bind].
    destruct (dict_get kg "attributes" (JObj [])) as [| | | | | |attrs];
      try discriminate.
    cbn [Py.items bind]. intros [= <-].
    destruct (truthy (dict_get kg "type" JNull));
      destruct (truthy (dict_get kg "description" JNull));
      rewrite <- ?app_assoc; eexists; reflexivity.
  - intros [= <-]. exists []. now rewrite app_nil_r.
Qed.

Lemma ranked_result_items_app (r : json) (items out : list item) :
  ranked_result_items r items = Ok out ->
  exists group,
    ranked_result_items r [] = Ok group /\
    out = (items ++ group)%list /\
    (List.length group <= 1 + Expected.attribute_count r)%nat.
Proof.
  unfold ranked_result_items, Expected.attribute_count.
  destruct r as [| | | | | |d]; try discriminate.
  cbn [get bind].
  destruct (dict_get d "attributes" (JObj [])) as [| | | | | |attrs];
    try discriminate.
  cbn [Py.items bind]. intros [= <-].
  destruct (lookup d "snippet").
  - eexists. split; [reflexivity|]. split.
    + now rewrite <- app_assoc.
    + cbn. rewrite length_map. lia.
  - eexists. split; [reflexivity|]. split.
    + reflexivity.
    + cbn. rewrite length_map. lia.
Qed.

Lemma for_each_result_groups (rs : list json) (items out : list item) :
  for_each_result rs items = Ok out ->
  exists groups,
    Forall2 (fun r group =>
               ranked_result_items r [] = Ok group /\
               (List.length group <= 1 + Expected.attribute_count r)%nat)
            rs groups /\
    out = (items ++ List.concat groups)%list.
Proof.
  revert items. induction rs as [|r rs IH]; intros items; cbn [for_each_result].
  - intros [= <-]. exists []. split; [constructor|]. cbn. now rewrite app_nil_r.
  - destruct (ranked_result_items r items) as [mid|e] eqn:Hr; [|discriminate].
    cbn [bind]. intros Hrest.
    destruct (ranked_result_items_app _ _ _ Hr) as (group & Hg & -> & Hlen).
    destruct (IH _ Hrest) as (groups & Hall & ->).
    exists (group :: groups). split.
    + constructor; auto.
    + cbn. now rewrite <- app_assoc.
Qed.

Lemma slice_to_length {A : Type} (l : list A) (k : Z) :
  0 <= k -> Z.of_nat (List.length (slice_to l k)) <= k.
Proof.
  intros Hk. unfold slice_to.
  destruct (0 <=? k)%Z eqn:E; [|lia].
  pose proof (firstn_le_length (Z.to_nat k) l). lia.
Qed.

Lemma getslice_length (v : json) (k : Z) (rs : list json) :
  0 <= k -> getslice v k = Ok rs -> Z.of_nat (List.length rs) <= k.
Proof.
  intros Hk. destruct v; cbn; try discriminate; intros [= <-].
  - rewrite length_map. now apply slice_to_length.
  - now apply slice_to_length.
Qed.


(** C2 as stated fails: with [k = 1], one ranked result that has a snippet
    and one attribute yields two items from the ranked-results section. *)
Lemma ranked_items_exceed_top_k :
  exists out,
    ranked_items Examples.client Examples.attributed_response [] = Ok out /\
    k Examples.client < Z.of_nat (List.length out).
Proof. eexists. split; [reflexivity|]. cbn. lia. Qed.

(** C2, amended: for a non-negative [k], the items of the ranked-results
    section come from at most [k] ranked results, the first [k] of the list;
    each result gives at most one snippet item plus one item per attribute,
    and the items of the answer box and of the knowledge graph precede them
    untouched. *)
Theorem ranked_results_capped (self : SerperAPI) (d : dict) (out : list item) :
  0 <= k self ->
  extract_items self d = Ok out ->
  exists box graph rs groups,
    answer_box_items d [] = Ok box /\
    knowledge_graph_items d box = Ok (box ++ graph)%list /\
    match lookup d (result_key_for_type (search_type self)) with
    | Some ranked => getslice ranked (k self) = Ok rs
    | None => rs = []
    end /\
    Z.of_nat (List.length rs) <= k self /\
    Forall2 (fun r group =>
               ranked_result_items r [] = Ok group /\
               (List.length group <= 1 + Expected.attribute_count r)%nat)
            rs groups /\
    out = (box ++ graph ++ List.concat groups)%list.
Proof.
  intros Hk. unfold extract_items.
  destruct (answer_box_items d []) as [box|e] eqn:Hbox; [|discriminate].
  cbn [bind].
  destruct (knowledge_graph_items d box) as [mid|e] eqn:Hkg; [|discriminate].
  cbn [bind].
  destruct (knowledge_graph_items_app _ _ _ Hkg) as (graph & ->).
  unfold ranked_items.
  destruct (lookup d (result_key_for_type (search_type self))) as [ranked|].
  - destruct (getslice ranked (k self)) as [rs|e] eqn:Hslice; [|discriminate].
    cbn [bind]. intros Hloop.
    destruct (for_each_result_groups _ _ _ Hloop) as (groups & Hall & ->).
    exists box, graph, rs, groups. repeat split; auto.
    + eapply getslice_length; eauto.
    + now rewrite <- app_assoc.
  - intros [= <-]. exists box, graph, [], []. repeat split; auto.
    cbn. now rewrite app_nil_r.
Qed.

Lemma ranked_results_capped_witness :
  exists box graph rs groups,
    answer_box_items Examples.attributed_response [] = Ok box /\
    knowledge_graph_items Examples.attributed_response box
      = Ok (box ++ graph)%list /\
    match lookup Examples.attributed_response
                 (result_key_for_type (search_type Examples.client)) with
    | Some ranked => getslice ranked (k Examples.client) = Ok rs
    | None => rs = []
    end /\
    Z.of_nat (List.length rs) <= k Examples.client /\
    Forall2 (fun r group =>
               ranked_result_items r [] = Ok group /\
               (List.length group <= 1 + Expected.attribute_count r)%nat)
            rs groups /\
    [ {| snippet := JStr "s"; link := JStr "https://t"; title := JStr "T" |};
      {| snippet := JStr "a: 1."; link := JStr "https://t"; title := JStr "T" |} ]
    = (box ++ graph ++ List.concat groups)%list.
Proof.
  apply (ranked_results_capped Examples.client Examples.attributed_response).
  - cbn. lia.
  - reflexivity.
Defined.


Lemma format_item_str (it : item) (t : string) :
  format_item it = JStr t -> t = Expected.citation it.
Proof.
  unfold format_item, Expected.citation.
  destruct (truthy (link it)).
  - now intros [= <-].
  - intros ->. cbn. now rewrite append_empty_r.
Qed.

Lemma all_str_format (items : list item) (ss : list string) :
  all_str (map format_item items) = Ok ss -> ss = map Expected.citation items.
Proof.
  revert ss. induction items as [|it items IH]; intros ss; cbn [map all_str].
  - now intros [= <-].
  - destruct (format_item it) eqn:Hit; try discriminate.
    destruct (all_str (map format_item items)) as [rest|e]; [|discriminate].
    cbn [bind]. intros [= <-].
    now rewrite (format_item_str _ _ Hit), (IH rest eq_refl).
Qed.

Lemma all_str_text_snippets (items : list item) :
  Forall (fun it => isinstance_str (snippet it) = true) items ->
  exists ss, all_str (map format_item items) = Ok ss.
Proof.
  induction 1 as [|it items Hit _ [ss IH]]; cbn [map all_str].
  - now exists [].
  - unfold format_item at 1. destruct (truthy (link it)).
    + rewrite IH. cbn. eauto.
    + destruct (snippet it); try discriminate. rewrite IH. cbn. eauto.
Qed.

(** C3: the serialised text is the snippets in extraction order, each
    followed by [ [Source: <url>]] when the item carries a link, joined by
    single spaces.  It is produced whenever the snippets are text, and every
    text that is produced has this form; Scenario C serialises to
    [Paris [Source: https://x]] for every client. *)
Theorem serialized_text_format (self : SerperAPI) (results : json)
    (items : list item) :
  _parse_snippets_with_links self results = Ok items ->
  (Forall (fun it => isinstance_str (snippet it) = true) items ->
   _parse_results self results = Ok (Expected.serialized_text items)) /\
  (forall text, _parse_results self results = Ok text ->
                text = Expected.serialized_text items) /\
  _parse_snippets_with_links self (JObj Examples.scenario_c)
    = Ok [{| snippet := JStr "Paris"; link := JStr "https://x";
             title := JStr "Answer Box" |}] /\
  _parse_results self (JObj Examples.scenario_c)
    = Ok "Paris [Source: https://x]".
Proof.
  intros Hitems. unfold _parse_results, format_items, join. rewrite Hitems.
  cbn [bind]. split; [|split; [|split]].
  - intros Htext. destruct (all_str_text_snippets _ Htext) as [ss Hss].
    rewrite Hss. cbn [bind]. now rewrite (all_str_format _ _ Hss).
  - intros text.
    destruct (all_str (map format_item items)) as [ss|e] eqn:Hss;
      [|discriminate].
    cbn [bind]. intros [= <-]. now rewrite (all_str_format _ _ Hss).
  - destruct self as [key g h n t []]; reflexivity.
  - destruct self as [key g h n t []]; reflexivity.
Qed.

Lemma serialized_text_format_witness :
  _parse_results Examples.client (JObj Examples.attributed_response)
  = Ok "s [Source: https://t] a: 1. [Source: https://t]".
Proof.
  destruct (serialized_text_format Examples.client
              (JObj Examples.attributed_response) _ eq_refl) as [H _].
  apply H. repeat constructor.
Defined.

(** C5 as stated fails: the snippet of the answer box yields a second item
    although it is the same text as the answer. *)
Lemma answer_box_snippet_not_compared :
  dict_get [("answer", JStr "Paris"); ("snippet", JStr "Paris")] "answer" JNull
    = dict_get [("answer", JStr "Paris"); ("snippet", JStr "Paris")] "snippet" JNull /\
  answer_box_items Examples.repeated_answer []
    = Ok [Expected.answer_box_item "Paris" (JStr "");
          Expected.answer_box_item "Paris" (JStr "")].
Proof. split; reflexivity. Qed.

Lemma replace_char_length (old new : ascii) (s : string) :
  String.length (replace_char old new s) = String.length s.
Proof. induction s as [|c s IH]; cbn; [reflexivity | now rewrite IH]. Qed.

Lemma replace_char_removes (old new : ascii) (s : string) :
  Ascii.eqb old new = false ->
  Citation.no_char old (replace_char old new s) = true.
Proof.
  intros Hne. induction s as [|c s IH]; cbn; [reflexivity|].
  rewrite IH, andb_true_r. destruct (Ascii.eqb c old) eqn:E.
  - now rewrite Hne.
  - now rewrite Ascii.eqb_sym, E.
Qed.

(** C5, amended: the answer of the answer box, when it is a non-empty
    string, yields one item titled Answer Box; the snippet, when it is a
    non-empty string, yields a further Answer Box item whether or not it
    equals the answer, each of its newlines replaced by one space. *)
Theorem answer_box_items_expected (results ab : dict) (items : list item) :
  lookup results "answerBox" = Some (JObj ab) ->
  answer_box_items results items =
  Ok (items ++ Expected.answer_box (dict_get ab "answer" JNull)
                                   (dict_get ab "snippet" JNull)
                                   (dict_get ab "link" (JStr "")))%list /\
  forall s,
    String.length (replace_char newline space s) = String.length s /\
    Citation.no_char newline (replace_char newline space s) = true.
Proof.
  intros Hbox. split; [now apply answer_box_items_eq|].
  intros s. split; [apply replace_char_length|].
  now apply replace_char_removes.
Qed.

Lemma answer_box_items_expected_witness :
  answer_box_items Examples.repeated_answer [] =
  Ok ([] ++ Expected.answer_box (JStr "Paris") (JStr "Paris") (JStr ""))%list.
Proof.
  apply (answer_box_items_expected Examples.repeated_answer
           [("answer", JStr "Paris"); ("snippet", JStr "Paris")] []).
  reflexivity.
Defined.

(** C6: when the three extraction steps leave no item, the parser returns
    the single placeholder item, whose link is empty, and the serialised
    text is the fixed message, in which no source marker is found. *)
Theorem placeholder_when_nothing_found (self : SerperAPI) (d : dict) :
  extract_items self d = Ok [] ->
  _parse_snippets_with_links self (JObj d) = Ok [no_result_item] /\
  snippet no_result_item = JStr NO_RESULT_MSG /\
  link no_result_item = JStr "" /\
  _parse_results self (JObj d) = Ok NO_RESULT_MSG /\
  Citation.findall NO_RESULT_MSG = [].
Proof.
  intros Hnone. unfold _parse_results, _parse_snippets_with_links.
  rewrite Hnone. cbn [bind]. repeat split; reflexivity.
Qed.

Lemma placeholder_when_nothing_found_witness :
  _parse_snippets_with_links Examples.client (JObj []) = Ok [no_result_item] /\
  snippet no_result_item = JStr NO_RESULT_MSG /\
  link no_result_item = JStr "" /\
  _parse_results Examples.client (JObj []) = Ok NO_RESULT_MSG /\
  Citation.findall NO_RESULT_MSG = [].
Proof.
  apply (placeholder_when_nothing_found Examples.client []). reflexivity.
Defined.

(** C10: when the answer box is a dict and its answer, or its snippet, is
    not a string, the answer-box step raises nothing and adds no item for
    that field, exactly as if the field were absent, and the knowledge graph
    and the ranked results are processed after it. *)
Theorem non_string_answer_box_field_skipped
    (self : SerperAPI) (results ab : dict) :
  lookup results "answerBox" = Some (JObj ab) ->
  let answer := dict_get ab "answer" JNull in
  let snippet := dict_get ab "snippet" JNull in
  let link := dict_get ab "link" (JStr "") in
  isinstance_str answer = false \/ isinstance_str snippet = false ->
  exists kept,
    answer_box_items results [] = Ok kept /\
    (isinstance_str answer = false ->
     kept = Expected.answer_box JNull snippet link) /\
    (isinstance_str snippet = false ->
     kept = Expected.answer_box answer JNull link) /\
    extract_items self results =
      (items <- knowledge_graph_items results kept ;;
       ranked_items self results items).
Proof.
  intros Hbox answer snip lnk _.
  exists (Expected.answer_box answer snip lnk).
  assert (Hstep : answer_box_items results []
                  = Ok (Expected.answer_box answer snip lnk))
    by (rewrite (answer_box_items_eq _ _ _ Hbox); reflexivity).
  split; [exact Hstep|]. split; [|split].
  - destruct answer; try discriminate; reflexivity.
  - destruct snip; try discriminate; reflexivity.
  - unfold extract_items. now rewrite Hstep.
Qed.

Lemma non_string_answer_box_field_skipped_witness :
  exists kept,
    answer_box_items Examples.numeric_answer [] = Ok kept /\
    (isinstance_str (JInt 42) = false ->
     kept = Expected.answer_box JNull (JStr "forty-two") (JStr "")) /\
    (isinstance_str (JStr "forty-two") = false ->
     kept = Expected.answer_box (JInt 42) JNull (JStr "")) /\
    extract_items Examples.client Examples.numeric_answer =
      (items <- knowledge_graph_items Examples.numeric_answer kept ;;
       ranked_items Examples.client Examples.numeric_answer items).
Proof.
  apply (non_string_answer_box_field_skipped Examples.client
           Examples.numeric_answer
           [("answer", JInt 42); ("snippet", JStr "forty-two")]).
  - reflexivity.
  - left. reflexivity.
Defined.

End Parser.

(** ** The retry loop and [run] *)

Section Retry.
Import Py Serper.



Lemma retry_loop_spins (fuel : nat) (w : Backend) (request : Request)
    (max_retries : Z) (r : Response) (s : LoopState) :
  (forall i req, post w i req = Responds r) ->
  ok r = false ->
  num_fails s < max_retries ->
  not_response s = true ->
  exists s',
    retry_loop fuel w request max_retries s = (StillRunning, s') /\
    requests s' = (requests s + fuel)%nat /\
    num_fails s' = num_fails s /\
    slept s' = slept s.
Proof.
  intros Hpost Hr. revert s.
  induction fuel as [|fuel IH]; intros s Hfails Hnot; cbn [retry_loop];
    unfold loop_condition; rewrite Hnot;
    replace (num_fails s <? max_retries)%Z with true
      by (symmetry; apply Z.ltb_lt; exact Hfails); cbn [andb].
  - exists s. repeat split. lia.
  - unfold attempt. rewrite Hpost.
    destruct (IH {| response := Some r; num_fails := num_fails s;
                    sleep_time := sleep_time s; requests := S (requests s);
                    slept := slept s; drawn := drawn s |})
      as (s' & Hrun & Hreq & Hnf & Hsl).
    + exact Hfails.
    + unfold not_response. cbn. now rewrite Hr.
    + exists s'. cbn in *. repeat split; auto. lia.
Qed.

(** C1 fails on the code: a response with an error status is false as a
    condition, so the loop goes round again, and only a raised exception
    counts as a failure.  With the default [max_retries] and a backend that
    answers every request with status 500, the call is still in its loop
    after any number of passes: as many requests as passes, no failure
    counted, no delay slept, no exception raised. *)
Theorem retry_loop_never_ends_on_http_errors
    (fuel : nat) (uniform : nat -> Q) (self : SerperAPI) (query : string) :
  let call :=
    _google_serper_api_results fuel (Examples.always_fails uniform) self query
      (search_type_name (search_type self)) default_max_retries
      (run_kwargs self) in
  fst call = Unfinished /\
  requests (snd call) = fuel /\
  num_fails (snd call) = 0 /\
  slept (snd call) = [].
Proof.
  intros call. subst call. unfold _google_serper_api_results.
  match goal with |- context [retry_loop _ _ ?req _ _] => set (request := req) end.
  destruct (retry_loop_spins fuel (Examples.always_fails uniform) request
              default_max_retries Examples.server_error initial)
    as (s' & Hrun & Hreq & Hnf & Hsl); try reflexivity.
  rewrite Hrun. cbn. auto.
Qed.

Lemma py_min_window (d : Q) :
  (1 <= d <= 10)%Q ->
  (1 <= py_min (d * (2 # 1)) (10 # 1) <= 10)%Q /\
  Qeq_bool (py_min (d * (2 # 1)) (10 # 1)) 0 = false.
Proof.
  intros [Hlo Hhi]. unfold py_min.
  destruct (Qle_bool (d * (2 # 1)) (10 # 1)) eqn:E.
  - apply Qle_bool_iff in E. split; [split; lra|].
    apply not_true_iff_false. intros H. apply Qeq_bool_iff in H. lra.
  - split; [split; lra|]. reflexivity.
Qed.

Lemma backoff_window (previous : Q) (delays : list Q) :
  (1 <= previous <= 10)%Q ->
  Expected.backoff previous delays ->
  Forall (fun d => 1 <= d <= 10)%Q delays.
Proof.
  revert previous. induction delays as [|d rest IH]; intros previous Hp;
    cbn [Expected.backoff]; [constructor|].
  intros [Hd Hrest].
  assert (Hw : (1 <= d <= 10)%Q).
  { destruct (py_min_window previous Hp) as [[? ?] _]. split; lra. }
  constructor; [exact Hw|]. eapply IH; eauto.
Qed.

Lemma retry_loop_exceptions (w : Backend) (request : Request) (max_retries : Z) :
  (forall i req, exists name, post w i req = RaisesException name) ->
  forall (n extra : nat) (s : LoopState),
    response s = None ->
    num_fails s + Z.of_nat n = max_retries ->
    (1 <= sleep_time s <= 10)%Q ->
    exists s' new,
      retry_loop (n + extra) w request max_retries s = (Exited, s') /\
      response s' = None /\
      requests s' = (requests s + n)%nat /\
      slept s' = (slept s ++ new)%list /\
      List.length new = n /\
      Expected.backoff (sleep_time s) new.
Proof.
  intros Hpost. induction n as [|n IH]; intros extra s Hresp Hfails Hsleep.
  - exists s, []. rewrite app_nil_r, Nat.add_0_r.
    repeat split; auto.
    destruct extra; cbn [Nat.add retry_loop]; unfold loop_condition;
      replace (num_fails s <? max_retries)%Z with false
        by (symmetry; apply Z.ltb_ge; lia);
      now rewrite andb_false_r.
  - cbn [Nat.add retry_loop]. unfold loop_condition, not_response.
    rewrite Hresp.
    replace (num_fails s <? max_retries)%Z with true
      by (symmetry; apply Z.ltb_lt; lia).
    cbn [andb]. unfold attempt.
    destruct (Hpost (requests s) request) as [name ->].
    destruct (py_min_window _ Hsleep) as [Hwin Hnz]. rewrite Hnz.
    match goal with |- context [retry_loop _ _ _ _ ?st] => set (s1 := st) end.
    destruct (IH extra s1) as (s' & new & Hrun & Hr & Hreq & Hsl & Hlen & Hback).
    { reflexivity. }
    { change (num_fails s1) with (num_fails s + 1)%Z. lia. }
    { exact Hwin. }
    exists s', (py_min (sleep_time s * (2 # 1)) (10 # 1) :: new).
    rewrite Hrun. subst s1. cbn in *. repeat split; auto.
    all: try lia.
    all: try (now rewrite Hsl, <- app_assoc).
    all: try reflexivity.
Qed.

(** The path the loop does bound: a backend whose every request raises
    (a timeout, a connection error) is tried exactly [max_retries] times;
    the first delay is the value drawn from [1, 3], each later one doubles
    the one before up to 10, and the call ends with [ValueError]. *)
Lemma timeouts_exhaust_retries (w : Backend) (self : SerperAPI)
    (search_term search_type : string) (kwargs : list (string * json))
    (max_retries : Z) (fuel : nat) :
  (forall i req, exists name, post w i req = RaisesException name) ->
  (1 <= uniform_1_3 w 0 <= 3)%Q ->
  0 < max_retries ->
  (Z.to_nat max_retries <= fuel)%nat ->
  exists s later,
    _google_serper_api_results fuel w self search_term search_type
      max_retries kwargs = (Raises ValueError, s) /\
    requests s = Z.to_nat max_retries /\
    slept s = uniform_1_3 w 0 :: later /\
    Expected.backoff (uniform_1_3 w 0) later /\
    Forall (fun d => 1 <= d <= 10)%Q (slept s).
Proof.
  intros Hpost Hdraw Hmax Hfuel.
  destruct (Z.to_nat max_retries) as [|n] eqn:En; [lia|].
  destruct fuel as [|fuel]; [lia|].
  unfold _google_serper_api_results.
  match goal with |- context [retry_loop _ _ ?req _ _] => set (request := req) end.
  cbn [retry_loop]. unfold loop_condition.
  replace (num_fails initial <? max_retries)%Z with true
    by (symmetry; apply Z.ltb_lt; cbn; lia).
  cbn [not_response initial response andb]. unfold attempt.
  destruct (Hpost (requests initial) request) as [name ->].
  change (Qeq_bool (py_min (sleep_time initial * (2 # 1)) (10 # 1)) 0) with true.
  cbn iota.
  match goal with |- context [retry_loop _ _ _ _ ?st] => set (s1 := st) end.
  destruct (retry_loop_exceptions w request max_retries Hpost n (fuel - n) s1)
    as (s' & new & Hrun & Hr & Hreq & Hsl & Hlen & Hback).
  { reflexivity. }
  { change (num_fails s1) with (0 + 1)%Z. lia. }
  { change (sleep_time s1) with (uniform_1_3 w 0). lra. }
  replace (n + (fuel - n))%nat with fuel in Hrun by lia.
  rewrite Hrun, Hr. exists s', new. subst s1. cbn in *.
  repeat split; auto.
  rewrite Hsl. constructor; [lra|].
  eapply backoff_window; [|exact Hback]. lra.
Qed.

(** Three timeouts with [1.5] drawn: delays 1.5, 3 and 6 (the fractions are
    not reduced), then [ValueError]. *)
Lemma timeouts_exhaust_retries_example :
  _google_serper_api_results 10 Examples.always_times_out Examples.client
    "Eiffel Tower location" "search" 3 (run_kwargs Examples.client)
  = (Raises ValueError,
     {| response := None; num_fails := 3; sleep_time := 12 # 2; requests := 3;
        slept := [3 # 2; 6 # 2; 12 # 2]; drawn := 1 |}).
Proof. vm_compute. reflexivity. Qed.

(** C9: with an empty key, [run] raises [AssertionError] and no request has
    been made, whatever the query and whatever the backend would answer; and
    an [AssertionError] raised inside the loop leaves it at once: the
    failure is not counted, nothing is slept, and no further request
    follows. *)
Theorem missing_key_raises_assertion
    (fuel : nat) (w : Backend) (self : SerperAPI) (query : string)
    (max_retries : Z) :
  serper_api_key self = "" ->
  run fuel w self query max_retries = (Raises AssertionError, initial) /\
  requests initial = 0%nat /\
  (forall request s,
      loop_condition max_retries s = true ->
      post w (requests s) request = RaisesAssertionError ->
      exists s',
        retry_loop (S fuel) w request max_retries s
          = (Thrown AssertionError, s') /\
        num_fails s' = num_fails s /\
        slept s' = slept s /\
        requests s' = S (requests s)).
Proof.
  intros Hkey. split; [|split].
  - unfold run. now rewrite Hkey.
  - reflexivity.
  - intros request s Hcond Hpost. cbn [retry_loop]. rewrite Hcond.
    unfold attempt. rewrite Hpost. eexists. split; [reflexivity|].
    cbn. auto.
Qed.

Lemma missing_key_raises_assertion_witness :
  run 5 Examples.always_assertion Examples.client_without_key
      "Eiffel Tower location" 3
    = (Raises AssertionError, initial) /\
  exists s',
    retry_loop 6 Examples.always_assertion
      {| url := "https://google.serper.dev/search"; headers := [];
         params := []; timeout := 30 |} 3 initial
      = (Thrown AssertionError, s') /\
    num_fails s' = num_fails initial /\
    slept s' = slept initial /\
    requests s' = S (requests initial).
Proof.
  destruct (missing_key_raises_assertion 5 Examples.always_assertion
              Examples.client_without_key "Eiffel Tower location" 3 eq_refl)
    as (Hrun & _ & Hloop).
  split; [exact Hrun|].
  apply (Hloop _ initial); reflexivity.
Defined.

End Retry.

(** ** Citations *)

Section Citations.
Import Citation.

Lemma strip_prefix_Some (p s t : string) :
  strip_prefix p s = Some t -> s = p ++ t.
Proof.
  revert s. induction p as [|a p IH]; intros s; cbn.
  - now intros [= ->].
  - destruct s as [|b s]; [discriminate|].
    destruct (Ascii.eqb a b) eqn:E; [|discriminate].
    apply Ascii.eqb_eq in E. subst b. intros H. now rewrite (IH _ H).
Qed.

Lemma strip_prefix_append (p t : string) : strip_prefix p (p ++ t) = Some t.
Proof.
  induction p as [|a p IH]; cbn; [reflexivity|].
  now rewrite Ascii.eqb_refl.
Qed.

Lemma span_url_append (s run after : string) :
  span_url s = (run, after) -> s = run ++ after.
Proof.
  revert run. induction s as [|c s IH]; intros run; cbn.
  - now intros [= <- <-].
  - destruct (Ascii.eqb c rbracket); [now intros [= <- <-]|].
    destruct (span_url s) as [run' after']. intros [= <- <-].
    cbn. now rewrite (IH run' eq_refl).
Qed.

Lemma span_url_stops (run t : string) :
  no_char rbracket run = true ->
  span_url (run ++ String rbracket t) = (run, String rbracket t).
Proof.
  induction run as [|c run IH]; cbn [no_char append span_url].
  - intros _. now rewrite Ascii.eqb_refl.
  - intros H. apply andb_true_iff in H as [Hc Hrun].
    rewrite Ascii.eqb_sym. apply negb_true_iff in Hc. rewrite Hc.
    now rewrite (IH Hrun).
Qed.

Lemma match_rest_shorter (s u after : string) :
  match_rest s = Some (u, after) ->
  (String.length after < String.length s)%nat.
Proof.
  unfold match_rest.
  destruct (strip_prefix "://" s) as [t|] eqn:Hp; [|discriminate].
  apply strip_prefix_Some in Hp. subst s.
  destruct (span_url t) as [[|c run] [|x rest]] eqn:Hs; try discriminate.
  intros [= <- <-]. apply span_url_append in Hs. subst t.
  rewrite !length_append. cbn. lia.
Qed.

Lemma match_here_shorter (s u after : string) :
  match_here s = Some (u, after) ->
  (String.length after < String.length s)%nat.
Proof.
  unfold match_here.
  destruct (strip_prefix opening s) as [t|] eqn:Hp; [|discriminate].
  apply strip_prefix_Some in Hp. subst s. rewrite length_append.
  destruct (strip_prefix "s" t) as [t'|] eqn:Hs.
  - apply strip_prefix_Some in Hs. subst t.
    destruct (match_rest t') as [[u1 a1]|] eqn:H1.
    + intros [= <- <-]. apply match_rest_shorter in H1.
      rewrite length_append. cbn. lia.
    + destruct (match_rest ("s" ++ t')) as [[u2 a2]|] eqn:H2; [|discriminate].
      intros [= <- <-]. apply match_rest_shorter in H2. cbn in *. lia.
  - destruct (match_rest t) as [[u2 a2]|] eqn:H2; [|discriminate].
    intros [= <- <-]. apply match_rest_shorter in H2. cbn. lia.
Qed.

Lemma findall_from_enough (n m : nat) (s : string) :
  (String.length s <= n)%nat -> (String.length s <= m)%nat ->
  findall_from n s = findall_from m s.
Proof.
  revert m s. induction n as [|n IH]; intros m s Hn Hm.
  - destruct s; [|cbn in Hn; lia]. now destruct m.
  - destruct s as [|c rest]; [now destruct m|].
    destruct m as [|m]; [cbn in Hm; lia|].
    cbn [findall_from]. cbn in Hn, Hm.
    destruct (match_here (String c rest)) as [[u after]|] eqn:Hmatch.
    + apply match_here_shorter in Hmatch. cbn in Hmatch.
      f_equal. apply IH; lia.
    + apply IH; lia.
Qed.

Lemma sub_from_enough (n m : nat) (s : string) :
  (String.length s <= n)%nat -> (String.length s <= m)%nat ->
  sub_from n s = sub_from m s.
Proof.
  revert m s. induction n as [|n IH]; intros m s Hn Hm.
  - destruct s; [|cbn in Hn; lia]. now destruct m.
  - destruct s as [|c rest]; [now destruct m|].
    destruct m as [|m]; [cbn in Hm; lia|].
    cbn [sub_from]. cbn in Hn, Hm.
    destruct (match_here (String c rest)) as [[u after]|] eqn:Hmatch.
    + apply match_here_shorter in Hmatch. cbn in Hmatch.
      apply IH; lia.
    + f_equal. apply IH; lia.
Qed.

Lemma match_here_other_char (c : ascii) (s : string) :
  Ascii.eqb lbracket c = false -> match_here (String c s) = None.
Proof.
  intros H. unfold match_here, opening. cbn [strip_prefix].
  change (Ascii.eqb "[" c) with (Ascii.eqb lbracket c). now rewrite H.
Qed.

Lemma match_rest_marker (run t : string) (c : ascii) :
  no_char rbracket (String c run) = true ->
  match_rest ("://" ++ String c run ++ String rbracket t)
  = Some ("://" ++ String c run, t).
Proof.
  intros Hno. unfold match_rest. rewrite strip_prefix_append.
  change (String c run ++ String rbracket t)
    with ((String c run) ++ String rbracket t).
  now rewrite (span_url_stops _ t Hno).
Qed.

Lemma match_here_marker (u t : string) :
  is_url u = true -> match_here (marker u ++ t) = Some (u, t).
Proof.
  unfold is_url.
  destruct (strip_prefix "http://" u) as [[|c tl]|] eqn:H1.
  - destruct (strip_prefix "https://" u) as [[|c tl]|]; discriminate.
  - intros Hno. apply strip_prefix_Some in H1. subst u.
    unfold marker, match_here.
    replace (("[Source: " ++ ("http://" ++ String c tl) ++ "]") ++ t)
      with (opening ++ "://" ++ String c tl ++ String rbracket t)
      by (cbn; now rewrite append_assoc).
    rewrite strip_prefix_append.
    change (strip_prefix "s" ("://" ++ String c tl ++ String rbracket t))
      with (@None string).
    cbn iota. now rewrite (match_rest_marker tl t c Hno).
  - destruct (strip_prefix "https://" u) as [[|c tl]|] eqn:H2; try discriminate.
    intros Hno. apply strip_prefix_Some in H2. subst u.
    unfold marker, match_here.
    replace (("[Source: " ++ ("https://" ++ String c tl) ++ "]") ++ t)
      with (opening ++ "s" ++ "://" ++ String c tl ++ String rbracket t)
      by (cbn; now rewrite append_assoc).
    rewrite strip_prefix_append.
    rewrite (strip_prefix_append "s").
    now rewrite (match_rest_marker tl t c Hno).
Qed.

Lemma findall_prose (p t : string) :
  no_char lbracket p = true -> findall (p ++ t) = findall t.
Proof.
  unfold findall. induction p as [|c p IH]; cbn [no_char append].
  - reflexivity.
  - intros H. apply andb_true_iff in H as [Hc Hp]. apply negb_true_iff in Hc.
    cbn [String.length findall_from].
    rewrite (match_here_other_char _ _ Hc). now apply IH.
Qed.

Lemma sub_prose (p t : string) :
  no_char lbracket p = true -> sub (p ++ t) = p ++ sub t.
Proof.
  unfold sub. induction p as [|c p IH]; cbn [no_char append].
  - reflexivity.
  - intros H. apply andb_true_iff in H as [Hc Hp]. apply negb_true_iff in Hc.
    cbn [String.length sub_from].
    rewrite (match_here_other_char _ _ Hc). now rewrite (IH Hp).
Qed.

Lemma marker_nonempty (u t : string) :
  exists c rest, marker u ++ t = String c rest /\
                 (String.length t <= String.length rest)%nat.
Proof.
  unfold marker. cbn. eexists _, _. split; [reflexivity|].
  cbn. rewrite !length_append. cbn. lia.
Qed.

Lemma findall_marker (u t : string) :
  is_url u = true -> findall (marker u ++ t) = u :: findall t.
Proof.
  intros Hu. unfold findall.
  destruct (marker_nonempty u t) as (c & rest & Heq & Hlen).
  pose proof (match_here_marker u t Hu) as Hm. rewrite Heq in *.
  cbn [String.length findall_from]. rewrite Hm. f_equal.
  apply findall_from_enough; lia.
Qed.

Lemma sub_marker (u t : string) :
  is_url u = true -> sub (marker u ++ t) = sub t.
Proof.
  intros Hu. unfold sub.
  destruct (marker_nonempty u t) as (c & rest & Heq & Hlen).
  pose proof (match_here_marker u t Hu) as Hm. rewrite Heq in *.
  cbn [String.length sub_from]. rewrite Hm.
  apply sub_from_enough; lia.
Qed.

Lemma no_char_append (c : ascii) (a b : string) :
  no_char c (a ++ b) = no_char c a && no_char c b.
Proof.
  induction a as [|x a IH]; cbn; [reflexivity|].
  now rewrite IH, andb_assoc.
Qed.

Lemma no_char_lstrip (c : ascii) (s : string) :
  no_char c s = true -> no_char c (lstrip s) = true.
Proof.
  induction s as [|x s IH]; cbn [lstrip]; [reflexivity|].
  destruct (isspace x); [|auto]. cbn [no_char]. intros H.
  apply andb_true_iff in H as [_ H]. auto.
Qed.

Lemma no_char_rstrip (c : ascii) (s : string) :
  no_char c s = true -> no_char c (rstrip s) = true.
Proof.
  induction s as [|x s IH]; cbn [rstrip no_char]; [reflexivity|].
  intros H. apply andb_true_iff in H as [Hx Hs]. specialize (IH Hs).
  destruct (rstrip s) as [|y kept].
  - destruct (isspace x); cbn [no_char]; [reflexivity|]. now rewrite Hx.
  - cbn [no_char] in *. now rewrite Hx, IH.
Qed.

Lemma findall_no_bracket (s : string) :
  no_char lbracket s = true -> findall s = [].
Proof.
  intros H. rewrite <- (append_empty_r s). now rewrite findall_prose.
Qed.

Lemma sub_no_bracket (s : string) :
  no_char lbracket s = true -> sub s = s.
Proof.
  intros H. rewrite <- (append_empty_r s) at 1. rewrite (sub_prose _ _ H).
  apply append_empty_r.
Qed.

Lemma occurs_cons (needle : string) (c : ascii) (hay : string) :
  occurs needle (String c hay) = false ->
  strip_prefix needle (String c hay) = None /\ occurs needle hay = false.
Proof.
  cbn [occurs]. destruct (strip_prefix needle (String c hay)); [discriminate|].
  auto.
Qed.

Lemma strip_prefix_extend (p a b r : string) :
  strip_prefix p a = Some r -> strip_prefix p (a ++ b) = Some (r ++ b).
Proof.
  intros H. apply strip_prefix_Some in H. subst a.
  rewrite append_assoc. apply strip_prefix_append.
Qed.

Lemma occurs_here (needle hay r : string) :
  strip_prefix needle hay = Some r -> occurs needle hay = true.
Proof. intros H. destruct hay; cbn [occurs]; now rewrite H. Qed.

Lemma occurs_append_l (needle a b : string) :
  occurs needle a = true -> occurs needle (a ++ b) = true.
Proof.
  induction a as [|c a IH]; cbn [occurs append].
  - destruct (strip_prefix needle "") as [r|] eqn:E; [|discriminate].
    intros _. apply (strip_prefix_extend _ _ b) in E.
    now apply occurs_here in E.
  - destruct (strip_prefix needle (String c a)) as [r|] eqn:E.
    + intros _. apply (strip_prefix_extend _ _ b) in E. cbn [append] in E.
      now rewrite E.
    + intros H. destruct (strip_prefix needle (String c (a ++ b))); auto.
Qed.

Lemma occurs_append_r (needle a b : string) :
  occurs needle b = true -> occurs needle (a ++ b) = true.
Proof.
  intros H. induction a as [|c a IH]; cbn [append]; [exact H|].
  cbn [occurs]. destruct (strip_prefix needle (String c (a ++ b))); auto.
Qed.

Lemma occurs_append (needle a b : string) :
  occurs needle (a ++ b) = false ->
  occurs needle a = false /\ occurs needle b = false.
Proof.
  intros H. split; apply not_true_iff_false; intros E.
  - apply (occurs_append_l _ _ b) in E. congruence.
  - apply (occurs_append_r _ a) in E. congruence.
Qed.

Lemma strip_prefix_within (lit a t r : string) :
  no_char lbracket lit = true ->
  boundary t ->
  strip_prefix lit (a ++ t) = Some r ->
  exists r', strip_prefix lit a = Some r'.
Proof.
  intros Hlit Ht. revert a. induction lit as [|x lit IH]; intros a.
  - cbn. eauto.
  - cbn [no_char] in Hlit. apply andb_true_iff in Hlit as [Hx Hlit].
    apply negb_true_iff in Hx. destruct a as [|y a]; cbn [append strip_prefix].
    + destruct Ht as [-> | [t' ->]]; [discriminate|].
      rewrite Ascii.eqb_sym, Hx. discriminate.
    + destruct (Ascii.eqb x y); [|discriminate]. now apply IH.
Qed.

Lemma match_here_in_prose (c : ascii) (p t : string) :
  strip_prefix opening (String c p) = None ->
  boundary t ->
  match_here (String c p ++ t) = None.
Proof.
  intros Hno Ht. unfold match_here.
  destruct (strip_prefix opening (String c p ++ t)) as [r|] eqn:E; [|reflexivity].
  exfalso.
  change (strip_prefix opening (String c p))
    with (if Ascii.eqb "[" c then strip_prefix "Source: http" p else None)
    in Hno.
  change (strip_prefix opening (String c p ++ t))
    with (if Ascii.eqb "[" c then strip_prefix "Source: http" (p ++ t)
          else None) in E.
  destruct (Ascii.eqb "[" c); [|discriminate].
  destruct (strip_prefix_within "Source: http" p t r eq_refl Ht E) as [r' Hr'].
  congruence.
Qed.

Lemma findall_sub_prose (p t : string) :
  occurs opening p = false ->
  boundary t ->
  findall (p ++ t) = findall t /\ sub (p ++ t) = p ++ sub t.
Proof.
  intros Hp Ht. unfold findall, sub.
  induction p as [|c p IH]; cbn [append]; [auto|].
  apply occurs_cons in Hp as [Hhere Hp].
  cbn [String.length findall_from sub_from].
  pose proof (match_here_in_prose c p t Hhere Ht) as Hm.
  cbn [append] in Hm. rewrite Hm.
  destruct (IH Hp) as [Hf Hs]. now rewrite Hf, Hs.
Qed.

Lemma marker_boundary (u t : string) : boundary (marker u ++ t).
Proof. right. unfold marker. cbn. eauto. Qed.

Lemma weave_prose_free (prose : string) (segments : list (string * string)) :
  Forall (fun seg => is_url (fst seg) = true) segments ->
  occurs opening (prose ++ String.concat "" (map snd segments)) = false ->
  findall (weave prose segments) = map fst segments /\
  sub (weave prose segments) = prose ++ String.concat "" (map snd segments).
Proof.
  intros Hsegs. revert prose.
  induction Hsegs as [|[u after] segments Hu _ IH]; intros prose Hfree;
    cbn [weave map fst snd] in *.
  - cbn [String.concat] in *. rewrite append_empty_r in Hfree.
    destruct (findall_sub_prose prose "" Hfree (or_introl eq_refl)) as [Hf Hs].
    rewrite !append_empty_r in *. split; [exact Hf|].
    rewrite Hs. reflexivity.
  - assert (Hjoin : String.concat "" (after :: map snd segments)
                    = after ++ String.concat "" (map snd segments)).
    { destruct segments; cbn; [now rewrite append_empty_r | reflexivity]. }
    rewrite Hjoin in *.
    apply occurs_append in Hfree as [Hprose Hrest].
    destruct (IH after Hrest) as [Hf Hs].
    destruct (findall_sub_prose prose (marker u ++ weave after segments) Hprose
                (marker_boundary _ _)) as [Hf0 Hs0].
    rewrite Hf0, Hs0, (findall_marker _ _ Hu), (sub_marker _ _ Hu), Hf, Hs.
    auto.
Qed.

Lemma lstrip_suffix (s : string) : exists w, s = w ++ lstrip s.
Proof.
  induction s as [|c s [w IH]]; cbn [lstrip]; [now exists ""|].
  destruct (isspace c).
  - exists (String c w). cbn. now rewrite <- IH.
  - now exists "".
Qed.

Lemma rstrip_prefix (s : string) : exists w, s = rstrip s ++ w.
Proof.
  induction s as [|c s [w IH]]; cbn [rstrip]; [now exists ""|].
  destruct (rstrip s) as [|y kept] eqn:E.
  - destruct (isspace c).
    + exists (String c s). reflexivity.
    + exists s. reflexivity.
  - exists w. cbn. now rewrite IH at 1.
Qed.

Lemma occurs_strip (needle s : string) :
  occurs needle s = false -> occurs needle (strip s) = false.
Proof.
  intros H. unfold strip.
  destruct (lstrip_suffix s) as [w Hw]. rewrite Hw in H.
  apply occurs_append in H as [_ H].
  destruct (rstrip_prefix (lstrip s)) as [w' Hw']. rewrite Hw' in H.
  now apply occurs_append in H as [H _].
Qed.

Lemma findall_prose_free (s : string) :
  occurs opening s = false -> findall s = [].
Proof.
  intros H. destruct (findall_sub_prose s "" H (or_introl eq_refl)) as [Hf _].
  now rewrite append_empty_r in Hf.
Qed.

Lemma findall_citation (it : Serper.item) (t : string) :
  Expected.plain_item it = true ->
  findall (Expected.citation it ++ t) = (Expected.links [it] ++ findall t)%list /\
  exists prose,
    sub (Expected.citation it ++ t) = prose ++ sub t /\
    no_char lbracket prose = true.
Proof.
  unfold Expected.plain_item, Expected.citation, Expected.links.
  destruct it as [snip lnk ttl]. cbn [Serper.snippet Serper.link flat_map].
  destruct snip as [| | | |s| |]; try discriminate.
  destruct lnk as [| | | |l| |]; try discriminate.
  cbn [Py.truthy Py.str]. intros H. apply andb_true_iff in H as [Hs Hl].
  destruct (l =? "")%string eqn:El; cbn [negb orb] in *.
  - rewrite append_empty_r. cbn [app]. split; [now apply findall_prose|].
    exists s. split; [now apply sub_prose | exact Hs].
  - assert (Hsp : no_char lbracket (s ++ " ") = true)
      by (rewrite no_char_append, Hs; reflexivity).
    replace ((s ++ " [Source: " ++ l ++ "]") ++ t)
      with ((s ++ " ") ++ marker l ++ t)
      by (unfold marker; rewrite !append_assoc; reflexivity).
    split.
    + rewrite (findall_prose _ _ Hsp), (findall_marker _ _ Hl).
      now rewrite app_nil_r.
    + exists (s ++ " ").
      now rewrite (sub_prose _ _ Hsp), (sub_marker _ _ Hl).
Qed.

Lemma findall_serialized (items : list Serper.item) (t : string) :
  forallb Expected.plain_item items = true ->
  findall (Expected.serialized_text items ++ t)
    = (Expected.links items ++ findall t)%list /\
  exists prose,
    sub (Expected.serialized_text items ++ t) = prose ++ sub t /\
    no_char lbracket prose = true.
Proof.
  unfold Expected.serialized_text. revert t.
  induction items as [|it items IH]; intros t; cbn [forallb map].
  - intros _. split; [reflexivity|]. now exists "".
  - intros H. apply andb_true_iff in H as [Hit Hrest].
    destruct items as [|it' items].
    + cbn [map String.concat]. destruct (findall_citation it t Hit) as [Hf Hs].
      split; [|exact Hs]. rewrite Hf. unfold Expected.links. cbn.
      now rewrite !app_nil_r.
    + change (String.concat " " (Expected.citation it
                                   :: map Expected.citation (it' :: items)))
        with (Expected.citation it ++ " "
                ++ String.concat " " (map Expected.citation (it' :: items))).
      rewrite !append_assoc.
      destruct (IH t Hrest) as (Hf & prose & Hs & Hp).
      destruct (findall_citation it
                  (" " ++ String.concat " " (map Expected.citation (it' :: items))
                       ++ t) Hit) as (Hf1 & prose1 & Hs1 & Hp1).
      rewrite Hf1, Hs1.
      rewrite (findall_prose " " _ eq_refl), (sub_prose " " _ eq_refl).
      rewrite Hf, Hs. split.
      * unfold Expected.links. cbn [flat_map]. now rewrite app_nil_r, app_assoc.
      * exists (prose1 ++ " " ++ prose). rewrite !append_assoc. split; auto.
        now rewrite !no_char_append, Hp1, Hp.
Qed.

(** The text the specification describes for a batch: when the snippets
    are text without an opening bracket and every link is empty or a URL,
    [sources] reads back the links of the items, in order, and nothing is
    found in [clean_text]. *)
Lemma serialized_batch_round_trip (items : list Serper.item) :
  forallb Expected.plain_item items = true ->
  sources (Expected.serialized_text items) = Expected.links items /\
  sources (clean_text (Expected.serialized_text items)) = [].
Proof.
  intros H. destruct (findall_serialized items "" H) as (Hf & prose & Hs & Hp).
  rewrite append_empty_r in Hf, Hs. unfold sources, clean_text. split.
  - rewrite Hf. apply app_nil_r.
  - apply findall_no_bracket. unfold strip.
    apply no_char_rstrip, no_char_lstrip.
    rewrite Hs. change (sub "") with "". now rewrite append_empty_r.
Qed.

(** C4 as stated fails: the serialised text of a response whose answer
    quotes a marker inside another one holds one marker, for a URL the
    pattern accepts; [sources] finds it, but the text left once it is removed
    is itself a marker. *)
Lemma stripped_text_keeps_a_marker :
  Serper._parse_results Examples.client (Py.JObj Examples.nested_marker_response)
    = Py.Ok (weave "[Source: h" [("http://a", "ttp://b]")]) /\
  is_url "http://a" = true /\
  sources (weave "[Source: h" [("http://a", "ttp://b]")]) = ["http://a"] /\
  clean_text (weave "[Source: h" [("http://a", "ttp://b]")])
    = marker "http://b" /\
  sources (clean_text (weave "[Source: h" [("http://a", "ttp://b]")]))
    = ["http://b"] /\
  ~ Expected.round_trip "[Source: h" [("http://a", "ttp://b]")].
Proof.
  repeat split; try reflexivity.
  intros [_ H]. discriminate H.
Qed.

(** C4, amended: when every URL is [http://] or [https://] followed by at
    least one character, none of them a closing bracket, and the prose
    around the markers, joined in order, nowhere holds the text
    [[Source: http], [sources] returns exactly the URLs of the markers, in
    order, removing the markers leaves the joined prose, and no marker is
    found in [clean_text]. *)
Theorem citations_round_trip (prose : string) (segments : list (string * string)) :
  Forall (fun seg => is_url (fst seg) = true) segments ->
  occurs opening (prose ++ String.concat "" (map snd segments)) = false ->
  Expected.round_trip prose segments /\
  sub (weave prose segments) = prose ++ String.concat "" (map snd segments).
Proof.
  intros Hsegs Hfree.
  destruct (weave_prose_free prose segments Hsegs Hfree) as [Hf Hs].
  split; [|exact Hs]. unfold Expected.round_trip, sources, clean_text.
  split; [exact Hf|].
  apply findall_prose_free, occurs_strip. now rewrite Hs.
Qed.

Lemma citations_round_trip_witness :
  Expected.round_trip "Paris[1] " [("https://x", " is the capital.")] /\
  sub (weave "Paris[1] " [("https://x", " is the capital.")])
    = "Paris[1]  is the capital.".
Proof.
  apply (citations_round_trip "Paris[1] " [("https://x", " is the capital.")]).
  - repeat constructor.
  - reflexivity.
Defined.

End Citations.

(** ** The verification loop *)

Section Transitions.
Import Orchestrator.

Variable p : Providers.
Variable max_llm_calls : nat.





Lemma step_continues (r r' : Run) :
  transition p max_llm_calls r = Continues r' -> step p max_llm_calls r = r'.
Proof. unfold step. now intros ->. Qed.












End Transitions.

Section Verify.
Import Orchestrator.



End Verify.

(* ================================================================== *)
(** * Further properties of the code *)

(** ** The parser *)

Section ParserMore.
Import Py Serper.

(** X1: every item a ranked result contributes carries that result's
    title, or [Search Result] when it has none, and its link, or the empty
    string; the result contributes one item when it has the key [snippet],
    whatever the value, plus one item per attribute. *)
Theorem ranked_result_items_tagged (d : dict) (items out : list item) :
  ranked_result_items (JObj d) items = Ok out ->
  exists group,
    out = (items ++ group)%list /\
    Forall (fun it => title it = dict_get d "title" (JStr "Search Result") /\
                      link it = dict_get d "link" (JStr "")) group /\
    List.length group
    = (match lookup d "snippet" with Some _ => 1 | None => 0 end
       + Expected.attribute_count (JObj d))%nat.
Proof.
  unfold ranked_result_items, Expected.attribute_count. cbn [get bind].
  destruct (dict_get d "attributes" (JObj [])) as [| | | | | |attrs];
    try discriminate.
  cbn [Py.items bind]. intros [= <-].
  destruct (lookup d "snippet") as [s|].
  - eexists. rewrite <- app_assoc. split; [reflexivity|]. split.
    + constructor; [cbn; auto|]. apply Forall_forall. intros it Hin.
      apply in_map_iff in Hin as (av & <- & _). cbn. auto.
    + cbn. now rewrite length_map.
  - eexists. split; [reflexivity|]. split.
    + apply Forall_forall. intros it Hin.
      apply in_map_iff in Hin as (av & <- & _). cbn. auto.
    + cbn. now rewrite length_map.
Qed.

Lemma ranked_result_items_tagged_witness :
  exists group,
    [ {| snippet := JStr "s"; link := JStr "https://t"; title := JStr "T" |};
      {| snippet := JStr "a: 1."; link := JStr "https://t"; title := JStr "T" |} ]
    = ([] ++ group)%list /\
    Forall (fun it => title it = JStr "T" /\ link it = JStr "https://t") group /\
    List.length group = 2%nat.
Proof.
  apply (ranked_result_items_tagged
           [("title", JStr "T"); ("link", JStr "https://t");
            ("snippet", JStr "s"); ("attributes", JObj [("a", JStr "1")])] []).
  reflexivity.
Defined.

(** X2: every item of the knowledge graph carries the same link: the
    value of [descriptionLink] when the key is present, even empty, and only
    otherwise the [website]; the graph contributes one item for a truthy
    type, one for a truthy description and one per attribute. *)
Theorem knowledge_graph_items_link (results kg : dict) (items out : list item) :
  lookup results "knowledgeGraph" = Some (JObj kg) ->
  knowledge_graph_items results items = Ok out ->
  exists graph,
    out = (items ++ graph)%list /\
    Forall (fun it =>
              link it = match lookup kg "descriptionLink" with
                        | Some l => l
                        | None => dict_get kg "website" (JStr "")
                        end) graph /\
    List.length graph
    = (Nat.b2n (truthy (dict_get kg "type" JNull))
       + Nat.b2n (truthy (dict_get kg "description" JNull))
       + Expected.attribute_count (JObj kg))%nat.
Proof.
  intros Hkg. unfold knowledge_graph_items, Expected.attribute_count.
  replace (dict_get results "knowledgeGraph" JNull) with (JObj kg)
    by (unfold dict_get; now rewrite Hkg).
  replace (dict_get results "knowledgeGraph" (JObj [])) with (JObj kg)
    by (unfold dict_get; now rewrite Hkg).
  cbn [get bind].
  destruct kg as [|kv kg'].
  - cbn. intros [= <-]. exists []. now rewrite app_nil_r.
  - cbn [truthy]. set (kg := kv :: kg').
    fold (dict_get kg "descriptionLink" (dict_get kg "website" (JStr ""))).
    destruct (dict_get kg "attributes" (JObj [])) as [| | | | | |attrs];
      try discriminate.
    cbn [Py.items bind]. intros [= <-].
    set (L := match lookup kg "descriptionLink" with
              | Some l => l
              | None => dict_get kg "website" (JStr "")
              end).
    change (dict_get kg "descriptionLink" (dict_get kg "website" (JStr "")))
      with L.
    assert (Hattrs : forall f : string * json -> json,
               Forall (fun it => link it = L)
                 (map (fun av => {| snippet := f av; link := L;
                                    title := dict_get kg "title" (JStr "") |})
                      attrs)).
    { intros f. apply Forall_forall. intros it Hin.
      apply in_map_iff in Hin as (av & <- & _). reflexivity. }
    destruct (truthy (dict_get kg "type" JNull));
      destruct (truthy (dict_get kg "description" JNull));
      rewrite <- ?app_assoc; eexists; (split; [reflexivity|]); split;
      cbn [app]; repeat (constructor; [reflexivity|]);
      try apply Hattrs; cbn; now rewrite length_map.
Qed.


Lemma knowledge_graph_items_link_witness :
  exists graph,
    [ {| snippet := JStr "Paris: Capital of France."; link := JStr "";
         title := JStr "Knowledge Graph" |};
      {| snippet := JStr "Paris is the capital."; link := JStr "";
         title := JStr "Paris" |};
      {| snippet := JStr "Paris Area: 105 km2."; link := JStr "";
         title := JStr "Paris" |} ] = ([] ++ graph)%list /\
    Forall (fun it => link it = JStr "") graph /\
    List.length graph = 3%nat.
Proof.
  apply (knowledge_graph_items_link Cases.graph_response _ [] _ eq_refl eq_refl).
Defined.

Lemma answer_box_items_raise (results : dict) (items : list item) (e : exn) :
  answer_box_items results items = Raise e -> e = AttributeError.
Proof.
  unfold answer_box_items.
  destruct (truthy (dict_get results "answerBox" JNull)); [|discriminate].
  destruct (dict_get results "answerBox" (JObj [])) as [| | | | | |ab];
    cbn [get bind]; now intros [= <-].
Qed.

Lemma all_str_raise (l : list json) (e : exn) :
  all_str l = Raise e -> e = TypeError.
Proof.
  induction l as [|v l IH]; cbn [all_str]; [discriminate|].
  destruct v; try (now intros [= <-]).
  destruct (all_str l) as [ss|e']; cbn [bind]; [discriminate|].
  intros [= <-]. now apply IH.
Qed.

(** X6: a response that is not an object, or whose [answerBox] or
    [knowledgeGraph] is truthy without being an object, makes the three
    parser methods raise [AttributeError]: each section is read with [.get]
    and its type is never tested, unlike the fields of the answer box. *)
Theorem malformed_section_raises (self : SerperAPI) (results : json) :
  (forall d, results <> JObj d) \/
  (exists d key v,
      results = JObj d /\
      (key = "answerBox" \/ key = "knowledgeGraph") /\
      lookup d key = Some v /\ truthy v = true /\ (forall o, v <> JObj o)) ->
  _parse_snippets_with_links self results = Raise AttributeError /\
  _parse_snippets self results = Raise AttributeError /\
  _parse_results self results = Raise AttributeError.
Proof.
  intros H.
  assert (Hp : _parse_snippets_with_links self results = Raise AttributeError).
  { destruct H as [Hno | (d & key & v & -> & Hkey & Hl & Ht & Hv)].
    - destruct results as [| | | | | |d]; try reflexivity. now destruct (Hno d).
    - unfold _parse_snippets_with_links, extract_items.
      assert (Hget : forall key' dflt, get v key' dflt = Raise AttributeError).
      { intros key' dflt. destruct v as [| | | | | |o]; try reflexivity.
        now destruct (Hv o). }
      destruct Hkey as [-> | ->].
      + unfold answer_box_items, dict_get. rewrite Hl, Ht, Hget. reflexivity.
      + destruct (answer_box_items d []) as [box|e] eqn:Hbox; cbn [bind].
        * unfold knowledge_graph_items, dict_get. rewrite Hl, Ht, Hget.
          reflexivity.
        * now rewrite (answer_box_items_raise _ _ _ Hbox). }
  split; [exact Hp|]. split.
  - unfold _parse_snippets. now rewrite Hp.
  - unfold _parse_results. now rewrite Hp.
Qed.

Lemma malformed_section_raises_witness :
  _parse_snippets_with_links Examples.client (JObj Cases.text_graph_response)
    = Raise AttributeError /\
  _parse_snippets Examples.client (JObj Cases.text_graph_response)
    = Raise AttributeError /\
  _parse_results Examples.client (JObj Cases.text_graph_response)
    = Raise AttributeError.
Proof.
  apply (malformed_section_raises Examples.client
           (JObj Cases.text_graph_response)).
  right. exists Cases.text_graph_response, "knowledgeGraph", (JStr "Paris").
  repeat split; try reflexivity; [now right | discriminate].
Defined.

Lemma format_item_text (it : item) :
  truthy (link it) = true \/ isinstance_str (snippet it) = true ->
  format_item it = JStr (Expected.citation it).
Proof.
  unfold format_item, Expected.citation.
  destruct (truthy (link it)); [reflexivity|].
  intros [H|H]; [discriminate|].
  destruct (snippet it); try discriminate. cbn. now rewrite append_empty_r.
Qed.

Lemma all_str_ok_iff (l : list json) :
  (exists ss, all_str l = Ok ss) <-> Forall (fun v => isinstance_str v = true) l.
Proof.
  induction l as [|v l IH]; cbn [all_str].
  - split; [constructor | eauto].
  - split.
    + intros [ss H]. destruct v; try discriminate.
      destruct (all_str l) as [rest|]; [|discriminate].
      constructor; [reflexivity|]. apply IH. eauto.
    + intros H. inversion H as [|? ? Hv Hl]; subst.
      destruct v; try discriminate. apply IH in Hl as [rest ->].
      cbn. eauto.
Qed.

(** X7: the serialisation of a list of items succeeds, with the text
    of the given form, when every item has a link or a string as its snippet;
    it raises [TypeError] when some item has no link and a snippet that is
    not a string. *)
Theorem format_items_type_error (items : list item) :
  (Forall (fun it => truthy (link it) = true \/
                     isinstance_str (snippet it) = true) items ->
   format_items items = Ok (Expected.serialized_text items)) /\
  (Exists (fun it => truthy (link it) = false /\
                     isinstance_str (snippet it) = false) items ->
   format_items items = Raise TypeError).
Proof.
  unfold format_items, join. split.
  - intros Hall.
    assert (Hmap : map format_item items
                   = map (fun it => JStr (Expected.citation it)) items).
    { apply map_ext_in. intros it Hin. apply format_item_text.
      eapply Forall_forall in Hall; eauto. }
    rewrite Hmap. unfold Expected.serialized_text.
    clear. induction items as [|it items IH]; [reflexivity|].
    cbn [map all_str]. 
    destruct (all_str (map (fun it0 => JStr (Expected.citation it0)) items))
      as [ss|e] eqn:E; cbn [bind] in *; [|discriminate].
    injection IH as IH. cbn [bind]. f_equal.
    destruct items as [|it' items]; cbn in *.
    + now injection E as <-.
    + destruct ss as [|s ss]; [discriminate E || idtac|].
      * destruct (all_str (map (fun it0 => JStr (Expected.citation it0)) items));
          discriminate.
      * now rewrite IH.
  - intros Hex.
    destruct (all_str (map format_item items)) as [ss|e] eqn:E; cbn [bind].
    + exfalso. assert (Hstr : exists ss, all_str (map format_item items) = Ok ss)
        by eauto.
      apply all_str_ok_iff in Hstr. apply Exists_exists in Hex as (it & Hin & Hl & Hs).
      rewrite Forall_forall in Hstr.
      specialize (Hstr (format_item it) (in_map _ _ _ Hin)).
      unfold format_item in Hstr. rewrite Hl in Hstr. congruence.
    + now rewrite (all_str_raise _ _ E).
Qed.


Lemma format_items_type_error_witness :
  format_items [{| snippet := JInt 3; link := JStr "https://t";
                   title := JStr "T" |}]
    = Ok "3 [Source: https://t]" /\
  format_items [{| snippet := JInt 3; link := JStr ""; title := JStr "T" |}]
    = Raise TypeError.
Proof.
  split.
  - apply (format_items_type_error
             [{| snippet := JInt 3; link := JStr "https://t";
                 title := JStr "T" |}]).
    repeat constructor.
  - apply (format_items_type_error
             [{| snippet := JInt 3; link := JStr ""; title := JStr "T" |}]).
    constructor. split; reflexivity.
Defined.

(** X8: when no extracted item carries a link, [_parse_results] is the
    legacy output joined: the snippets [_parse_snippets] returns, joined by
    single spaces. *)
Theorem parse_results_without_links
    (self : SerperAPI) (results : json) (items : list item) :
  _parse_snippets_with_links self results = Ok items ->
  Forall (fun it => truthy (link it) = false) items ->
  _parse_snippets self results = Ok (map snippet items) /\
  _parse_results self results = join " " (map snippet items).
Proof.
  intros Hitems Hno. unfold _parse_snippets, _parse_results, format_items.
  rewrite Hitems. cbn [bind]. split; [reflexivity|]. f_equal.
  apply map_ext_in. intros it Hin. unfold format_item.
  eapply Forall_forall in Hno; eauto. now rewrite Hno.
Qed.

Lemma parse_results_without_links_witness :
  _parse_snippets Cases.client_top_2 (JObj Cases.unlinked_response)
    = Ok [JStr "first"; JStr "second"] /\
  _parse_results Cases.client_top_2 (JObj Cases.unlinked_response)
    = join " " [JStr "first"; JStr "second"].
Proof.
  apply (parse_results_without_links Cases.client_top_2
           (JObj Cases.unlinked_response) _ eq_refl).
  repeat constructor.
Defined.

Lemma dict_get_JObj (d : dict) (key : string) (ab : dict) :
  dict_get d key JNull = JObj ab -> lookup d key = Some (JObj ab).
Proof. unfold dict_get. destruct (lookup d key); [congruence | discriminate]. Qed.

(** X3: whatever the response, the answer box contributes at most two
    items; each is titled [Answer Box], has a non-empty string as its
    snippet, and they share one link. *)
Theorem answer_box_items_are_text (results : dict) (items out : list item) :
  answer_box_items results items = Ok out ->
  exists new shared_link,
    out = (items ++ new)%list /\
    (List.length new <= 2)%nat /\
    Forall (fun it =>
              title it = JStr "Answer Box" /\
              link it = shared_link /\
              exists s, snippet it = JStr s /\ s <> "") new.
Proof.
  intros H.
  assert (Hnone : out = items ->
          exists new shared_link,
            out = (items ++ new)%list /\
            (List.length new <= 2)%nat /\
            Forall (fun it =>
                      title it = JStr "Answer Box" /\
                      link it = shared_link /\
                      exists s, snippet it = JStr s /\ s <> "") new).
  { intros ->. exists [], JNull. rewrite app_nil_r.
    split; [reflexivity|]. split; [cbn; lia | constructor]. }
  destruct (lookup results "answerBox") as [v|] eqn:Hl.
  2:{ unfold answer_box_items, dict_get in H. rewrite Hl in H. cbn in H.
      injection H as <-. now apply Hnone. }
  destruct v as [| | | | | |ab].
  1-6: unfold answer_box_items, dict_get in H; rewrite Hl in H;
       match type of H with
       | context [truthy ?v] => destruct (truthy v)
       end; cbn in H; [discriminate H | injection H as <-; now apply Hnone].
  rewrite (answer_box_items_eq _ _ _ Hl) in H. injection H as <-.
  eexists _, (dict_get ab "link" (JStr "")).
  split; [reflexivity|]. unfold Expected.answer_box, Expected.answer_box_item.
  destruct (dict_get ab "answer" JNull) as [| | | |[|c a]| |];
    destruct (dict_get ab "snippet" JNull) as [| | | |[|c' s]| |];
    cbn [app List.length]; (split; [lia|]);
    repeat (constructor;
            [cbn; repeat split; eexists; split; [reflexivity | discriminate]|]);
    constructor.
Qed.

Lemma answer_box_items_are_text_witness :
  exists new shared_link,
    [Expected.answer_box_item "Paris" (JStr "");
     Expected.answer_box_item "Paris" (JStr "")] = ([] ++ new)%list /\
    (List.length new <= 2)%nat /\
    Forall (fun it =>
              title it = JStr "Answer Box" /\
              link it = shared_link /\
              exists s, snippet it = JStr s /\ s <> "") new.
Proof.
  apply (answer_box_items_are_text Examples.repeated_answer []). reflexivity.
Defined.

(** X5: a response whose answer box and knowledge graph are absent or
    falsy and whose slice of ranked results is empty (no such key, an empty
    list, or [k = 0]) is parsed to the placeholder item and serialised to the
    fixed message. *)
Theorem empty_sections_give_no_result (self : SerperAPI) (d : dict) :
  truthy (dict_get d "answerBox" JNull) = false ->
  truthy (dict_get d "knowledgeGraph" JNull) = false ->
  match lookup d (result_key_for_type (search_type self)) with
  | Some ranked => getslice ranked (k self) = Ok []
  | None => True
  end ->
  _parse_snippets_with_links self (JObj d) = Ok [no_result_item] /\
  _parse_results self (JObj d) = Ok NO_RESULT_MSG.
Proof.
  intros Hbox Hkg Hranked.
  assert (Hitems : _parse_snippets_with_links self (JObj d) = Ok [no_result_item]).
  { unfold _parse_snippets_with_links, extract_items, answer_box_items,
      knowledge_graph_items, ranked_items.
    rewrite Hbox. cbn [bind]. rewrite Hkg. cbn [bind].
    destruct (lookup d (result_key_for_type (search_type self))).
    - now rewrite Hranked.
    - reflexivity. }
  split; [exact Hitems|]. unfold _parse_results. now rewrite Hitems.
Qed.

Lemma empty_sections_give_no_result_witness :
  _parse_snippets_with_links Cases.client_top_0
    (JObj (("answerBox", JObj []) :: Cases.unlinked_response))
    = Ok [no_result_item] /\
  _parse_results Cases.client_top_0
    (JObj (("answerBox", JObj []) :: Cases.unlinked_response))
    = Ok NO_RESULT_MSG.
Proof.
  apply (empty_sections_give_no_result Cases.client_top_0
           (("answerBox", JObj []) :: Cases.unlinked_response));
    reflexivity.
Defined.

(** X4: ranked results after the first [k] are never read: appending
    anything to the ranked list, well-formed or not, changes neither the
    items nor the serialised text, nor whether the parser raises. *)
Theorem results_beyond_top_k_ignored (self : SerperAPI) (d d' : dict)
    (ranked extra : list json) :
  lookup d' "answerBox" = lookup d "answerBox" ->
  lookup d' "knowledgeGraph" = lookup d "knowledgeGraph" ->
  lookup d (result_key_for_type (search_type self)) = Some (JArr ranked) ->
  lookup d' (result_key_for_type (search_type self))
    = Some (JArr (ranked ++ extra)) ->
  0 <= k self <= Z.of_nat (List.length ranked) ->
  _parse_snippets_with_links self (JObj d')
    = _parse_snippets_with_links self (JObj d) /\
  _parse_results self (JObj d') = _parse_results self (JObj d).
Proof.
  intros Hbox Hkg Hr Hr' Hk.
  assert (H : _parse_snippets_with_links self (JObj d')
              = _parse_snippets_with_links self (JObj d)).
  { unfold _parse_snippets_with_links, extract_items, answer_box_items,
      knowledge_graph_items, ranked_items, dict_get.
    rewrite Hbox, Hkg, Hr, Hr'. cbn [getslice]. unfold slice_to.
    replace (0 <=? k self)%Z with true by (symmetry; apply Z.leb_le; lia).
    rewrite firstn_app.
    replace (Z.to_nat (k self) - List.length ranked)%nat with 0%nat by lia.
    cbn [firstn]. now rewrite app_nil_r. }
  split; [exact H|]. unfold _parse_results. now rewrite H.
Qed.

Lemma results_beyond_top_k_ignored_witness :
  _parse_snippets_with_links Examples.client
    (JObj [("organic", JArr ([JObj [("snippet", JStr "first")]]
                             ++ [JStr "not a result"]))])
    = _parse_snippets_with_links Examples.client
        (JObj [("organic", JArr [JObj [("snippet", JStr "first")]])]) /\
  _parse_results Examples.client
    (JObj [("organic", JArr ([JObj [("snippet", JStr "first")]]
                             ++ [JStr "not a result"]))])
    = _parse_results Examples.client
        (JObj [("organic", JArr [JObj [("snippet", JStr "first")]])]).
Proof.
  apply (results_beyond_top_k_ignored Examples.client
           [("organic", JArr [JObj [("snippet", JStr "first")]])]
           [("organic", JArr ([JObj [("snippet", JStr "first")]]
                              ++ [JStr "not a result"]))]
           [JObj [("snippet", JStr "first")]] [JStr "not a result"]);
    try reflexivity.
  cbn. lia.
Defined.

End ParserMore.

(** ** The retry loop and [run] *)

Section RetryMore.
Import Py Serper Invariants Wire.

Lemma attempt_invariant (w : Backend) (request : Request) (max_retries : Z)
    (s : LoopState) :
  (forall i, 1 <= uniform_1_3 w i <= 3)%Q ->
  loop_condition max_retries s = true ->
  retry_invariant max_retries s ->
  match attempt w request s with
  | Next s' | Throw _ s' => retry_invariant max_retries s'
  end.
Proof.
  intros Hdraw Hcond (Hlen & Hfails & Hreq & Hwin & Hsleep).
  unfold loop_condition in Hcond. apply andb_true_iff in Hcond as [_ Hlt].
  apply Z.ltb_lt in Hlt.
  unfold attempt. destruct (post w (requests s) request) as [r| |name].
  - unfold retry_invariant. cbn. repeat split; auto; lia.
  - unfold retry_invariant. cbn. repeat split; auto; lia.
  - destruct Hsleep as [(Hz & Hs0 & Hd0) | (Hpos & Hs & Hd1)].
    + rewrite Hs0. change (Qeq_bool (py_min (0 * (2 # 1)) (10 # 1)) 0) with true.
      cbn iota. unfold retry_invariant.
      cbn [slept num_fails requests sleep_time drawn].
      rewrite length_app, Nat2Z.inj_add. cbn [List.length].
      assert (Hu : in_window (uniform_1_3 w (drawn s))).
      { specialize (Hdraw (drawn s)). unfold in_window. lra. }
      split; [lia|]. split; [lia|]. split; [lia|]. split.
      * apply Forall_app. split; [exact Hwin | repeat constructor; apply Hu].
      * right. split; [lia|]. split; [exact Hu | now rewrite Hd0].
    + destruct (py_min_window _ Hs) as [Hw Hnz]. rewrite Hnz.
      unfold retry_invariant.
      cbn [slept num_fails requests sleep_time drawn].
      rewrite length_app, Nat2Z.inj_add. cbn [List.length].
      split; [lia|]. split; [lia|]. split; [lia|]. split.
      * apply Forall_app. split; [exact Hwin | repeat constructor; apply Hw].
      * right. split; [lia|]. split; [exact Hw | exact Hd1].
Qed.

Lemma retry_loop_invariant (w : Backend) (request : Request) (max_retries : Z) :
  (forall i, 1 <= uniform_1_3 w i <= 3)%Q ->
  forall (fuel : nat) (s : LoopState),
    retry_invariant max_retries s ->
    retry_invariant max_retries (snd (retry_loop fuel w request max_retries s)).
Proof.
  intros Hdraw. induction fuel as [|fuel IH]; intros s Hinv; cbn [retry_loop].
  - destruct (loop_condition max_retries s); exact Hinv.
  - destruct (loop_condition max_retries s) eqn:Hcond; [|exact Hinv].
    pose proof (attempt_invariant w request max_retries s Hdraw Hcond Hinv) as H.
    destruct (attempt w request s) as [s'|e s']; [now apply IH | exact H].
Qed.

Lemma initial_invariant (max_retries : Z) : retry_invariant max_retries initial.
Proof.
  unfold retry_invariant. cbn. repeat split; try lia; [constructor|].
  left. auto.
Qed.

Lemma call_state (fuel : nat) (w : Backend) (self : SerperAPI)
    (search_term search_type : string) (max_retries : Z)
    (kwargs : list (string * json)) :
  exists request,
    snd (_google_serper_api_results fuel w self search_term search_type
           max_retries kwargs)
    = snd (retry_loop fuel w request max_retries initial).
Proof.
  unfold _google_serper_api_results.
  match goal with |- context [retry_loop _ _ ?req _ _] => exists req end.
  destruct (retry_loop _ _ _ _ _) as [[| |] s]; cbn [snd]; auto.
  destruct (response s) as [r|]; [|reflexivity].
  destruct (ok r); reflexivity.
Qed.

(** X12: whatever the backend does and however long the loop runs,
    the call sleeps once per counted failure, counts at most [max_retries]
    failures and no more failures than requests, sleeps between 1 and 10
    seconds each time, and draws at most one random number. *)
Theorem retry_keeps_invariant (fuel : nat) (w : Backend) (self : SerperAPI)
    (search_term search_type : string) (max_retries : Z)
    (kwargs : list (string * json)) :
  (forall i, 1 <= uniform_1_3 w i <= 3)%Q ->
  let s := snd (_google_serper_api_results fuel w self search_term search_type
                  max_retries kwargs) in
  Z.of_nat (List.length (slept s)) = num_fails s /\
  0 <= num_fails s <= Z.max 0 max_retries /\
  num_fails s <= Z.of_nat (requests s) /\
  Forall (fun d => 1 <= d <= 10)%Q (slept s) /\
  (drawn s <= 1)%nat.
Proof.
  intros Hdraw s. subst s.
  destruct (call_state fuel w self search_term search_type max_retries kwargs)
    as [request ->].
  destruct (retry_loop_invariant w request max_retries Hdraw fuel initial
              (initial_invariant max_retries))
    as (Hlen & Hfails & Hreq & Hwin & Hsleep).
  repeat split; auto; lia.
Qed.


Lemma retry_keeps_invariant_witness :
  let s := snd (_google_serper_api_results 40 (Examples.always_fails (fun _ => 2 # 1))
                  Examples.client "q" "search" 3 (run_kwargs Examples.client)) in
  Z.of_nat (List.length (slept s)) = num_fails s /\
  0 <= num_fails s <= Z.max 0 3 /\
  num_fails s <= Z.of_nat (requests s) /\
  Forall (fun d => 1 <= d <= 10)%Q (slept s) /\
  (drawn s <= 1)%nat.
Proof.
  apply (retry_keeps_invariant 40 (Examples.always_fails (fun _ => 2 # 1))
           Examples.client "q" "search" 3 (run_kwargs Examples.client)).
  intros i. cbn. lra.
Defined.

Lemma retry_loop_bounded (w : Backend) (request : Request) (max_retries : Z) :
  (forall i req r, post w i req = Responds r -> ok r = true) ->
  forall (fuel : nat) (s : LoopState),
    no_error_response s ->
    (Z.to_nat (max_retries - num_fails s) <= fuel)%nat ->
    fst (retry_loop fuel w request max_retries s) <> StillRunning /\
    (requests (snd (retry_loop fuel w request max_retries s))
     <= requests s + Z.to_nat (max_retries - num_fails s))%nat.
Proof.
  intros Hok. induction fuel as [|fuel IH]; intros s Hresp Hfuel;
    cbn [retry_loop]; destruct (loop_condition max_retries s) eqn:Hcond;
    try (cbn; split; [discriminate | lia]).
  - unfold loop_condition in Hcond. apply andb_true_iff in Hcond as [_ Hlt].
    apply Z.ltb_lt in Hlt. lia.
  - unfold loop_condition in Hcond. apply andb_true_iff in Hcond as [Hnot Hlt].
    apply Z.ltb_lt in Hlt. unfold attempt.
    destruct (post w (requests s) request) as [r| |name] eqn:Hpost.
    + match goal with |- context [retry_loop _ _ _ _ ?st] => set (s1 := st) end.
      assert (Hexit : forall f, retry_loop f w request max_retries s1 = (Exited, s1)).
      { intros f. assert (Hc : loop_condition max_retries s1 = false).
        { unfold loop_condition, not_response. cbn.
          now rewrite (Hok _ _ _ Hpost). }
        destruct f; cbn [retry_loop]; now rewrite Hc. }
      rewrite Hexit. cbn. split; [discriminate | lia].
    + cbn. split; [discriminate | lia].
    + match goal with |- context [retry_loop _ _ _ _ ?st] => set (s1 := st) end.
      destruct (IH s1) as [Hend Hreq].
      * left. reflexivity.
      * change (num_fails s1) with (num_fails s + 1). lia.
      * split; [exact Hend|].
        change (num_fails s1) with (num_fails s + 1) in Hreq.
        change (requests s1) with (S (requests s)) in Hreq. lia.
Qed.

(** X11: against a backend that never answers with a status from 400
    to 599, the call ends within [max_retries] requests; with
    [max_retries <= 0] it raises [ValueError] and makes no request. *)
Theorem retry_ends_without_error_status
    (fuel : nat) (w : Backend) (self : SerperAPI)
    (search_term search_type : string) (max_retries : Z)
    (kwargs : list (string * json)) :
  (forall i req r, post w i req = Responds r -> ok r = true) ->
  (Z.to_nat max_retries <= fuel)%nat ->
  let call := _google_serper_api_results fuel w self search_term search_type
                max_retries kwargs in
  fst call <> Unfinished /\
  (requests (snd call) <= Z.to_nat max_retries)%nat /\
  (max_retries <= 0 -> call = (Raises ValueError, initial)).
Proof.
  intros Hok Hfuel call. subst call. unfold _google_serper_api_results.
  match goal with |- context [retry_loop _ _ ?req _ _] => set (request := req) end.
  destruct (retry_loop_bounded w request max_retries Hok fuel initial)
    as [Hend Hreq].
  { left. reflexivity. }
  { cbn [num_fails initial]. now rewrite Z.sub_0_r. }
  cbn [num_fails requests initial] in Hreq. rewrite Z.sub_0_r in Hreq.
  split; [|split].
  - destruct (retry_loop fuel w request max_retries initial) as [[| |] s];
      cbn in *; try congruence.
    destruct (response s) as [r|]; [destruct (ok r)|]; cbn; try discriminate.
    destruct (raise_for_status r); cbn; try discriminate.
    destruct (response_json r); discriminate.
  - destruct (retry_loop fuel w request max_retries initial) as [[| |] s];
      cbn in *; try lia.
    destruct (response s) as [r|]; [destruct (ok r)|]; cbn; lia.
  - intros Hmax.
    assert (Hc : loop_condition max_retries initial = false).
    { unfold loop_condition. cbn.
      apply Z.ltb_ge. lia. }
    destruct fuel; cbn [retry_loop]; rewrite Hc; reflexivity.
Qed.

Lemma retry_ends_without_error_status_witness :
  let call := _google_serper_api_results 3 Examples.answers_after_a_timeout
                Examples.client "q" "search" 3 (run_kwargs Examples.client) in
  fst call <> Unfinished /\
  (requests (snd call) <= Z.to_nat 3)%nat /\
  (3 <= 0 -> call = (Raises ValueError, initial)).
Proof.
  apply (retry_ends_without_error_status 3 Examples.answers_after_a_timeout
           Examples.client "q" "search" 3 (run_kwargs Examples.client)).
  - intros [|i] req r; cbn; [discriminate|]. now intros [= <-].
  - cbn. lia.
Defined.

Lemma retry_loop_thrown (w : Backend) (request : Request) (max_retries : Z)
    (fuel : nat) (s s' : LoopState) (e : exn) :
  retry_loop fuel w request max_retries s = (Thrown e, s') ->
  e = AssertionError.
Proof.
  revert s. induction fuel as [|fuel IH]; intros s; cbn [retry_loop];
    destruct (loop_condition max_retries s); try discriminate.
  unfold attempt. destruct (post w (requests s) request).
  - apply IH.
  - now intros [= <- _].
  - apply IH.
Qed.

Lemma retry_loop_exit (w : Backend) (request : Request) (max_retries : Z)
    (fuel : nat) (s s' : LoopState) :
  (forall r, response s = Some r -> num_fails s < max_retries) ->
  retry_loop fuel w request max_retries s = (Exited, s') ->
  match response s' with
  | Some r => ok r = true
  | None => max_retries <= num_fails s'
  end.
Proof.
  revert s. induction fuel as [|fuel IH]; intros s Hinv; cbn [retry_loop];
    destruct (loop_condition max_retries s) eqn:Hc; try discriminate.
  - intros [= <-]. revert Hc Hinv. unfold loop_condition, not_response.
    destruct (response s) as [r|]; [destruct (ok r)|]; cbn; intros Hc Hinv.
    + reflexivity.
    + apply Z.ltb_ge in Hc. specialize (Hinv r eq_refl). lia.
    + now apply Z.ltb_ge in Hc.
  - unfold attempt. destruct (post w (requests s) request) as [r| |name].
    + apply IH. cbn. intros _ _.
      unfold loop_condition in Hc. apply andb_true_iff in Hc.
      now apply Z.ltb_lt.
    + discriminate.
    + apply IH. cbn. discriminate.
  - intros [= <-]. revert Hc Hinv. unfold loop_condition, not_response.
    destruct (response s) as [r|]; [destruct (ok r)|]; cbn; intros Hc Hinv.
    + reflexivity.
    + apply Z.ltb_ge in Hc. specialize (Hinv r eq_refl). lia.
    + now apply Z.ltb_ge in Hc.
Qed.

(** X13: [response.raise_for_status()] never raises.  Whatever the
    backend does, the loop is left either with a response whose status is
    outside 400 to 599 or, without a response, with [max_retries] failures
    counted; a response with an error status is never what the loop ends
    on, so the call never raises [HTTPError]. *)
Theorem raise_for_status_never_raises
    (fuel : nat) (w : Backend) (max_retries : Z) :
  (forall request s,
      retry_loop fuel w request max_retries initial = (Exited, s) ->
      match response s with
      | Some r => ok r = true /\ raise_for_status r = Ok tt
      | None => max_retries <= num_fails s
      end) /\
  (forall self search_term search_type kwargs,
      fst (_google_serper_api_results fuel w self search_term search_type
             max_retries kwargs) <> Raises HTTPError).
Proof.
  assert (Hexit : forall request s,
      retry_loop fuel w request max_retries initial = (Exited, s) ->
      match response s with
      | Some r => ok r = true /\ raise_for_status r = Ok tt
      | None => max_retries <= num_fails s
      end).
  { intros request s Hloop.
    pose proof (retry_loop_exit w request max_retries fuel initial s) as H.
    specialize (H ltac:(cbn; discriminate) Hloop).
    destruct (response s) as [r|]; [|exact H]. split; [exact H|].
    unfold raise_for_status, ok in *. apply negb_true_iff in H. now rewrite H. }
  split; [exact Hexit|].
  intros self search_term search_type kwargs. unfold _google_serper_api_results.
  match goal with |- context [retry_loop _ _ ?req _ _] => set (request := req) end.
  specialize (Hexit request).
  destruct (retry_loop fuel w request max_retries initial) as [[|e|] s] eqn:Hloop;
    cbn [fst].
  - specialize (Hexit s eq_refl).
    destruct (response s) as [r|]; [|discriminate].
    destruct Hexit as [Hok Hstatus]. rewrite Hok, Hstatus. cbn [bind fst].
    unfold response_json. destruct (json_body r); cbn; discriminate.
  - rewrite (retry_loop_thrown _ _ _ _ _ _ _ Hloop). discriminate.
  - discriminate.
Qed.

Lemma raise_for_status_never_raises_witness :
  (let s := snd (retry_loop 5 Examples.answers_after_a_timeout
                   (run_request Examples.client "q") 3 initial) in
   response s = Some Examples.paris /\
   ok Examples.paris = true /\ raise_for_status Examples.paris = Ok tt) /\
  fst (_google_serper_api_results 5 (Examples.always_fails (fun _ => 3 # 2))
         Examples.client "q" "search" 3 (run_kwargs Examples.client))
  <> Raises HTTPError.
Proof.
  destruct (raise_for_status_never_raises 5 Examples.answers_after_a_timeout 3)
    as [Hexit _].
  destruct (raise_for_status_never_raises 5 (Examples.always_fails (fun _ => 3 # 2)) 3)
    as [_ Hcall].
  split; [|apply Hcall].
  specialize (Hexit (run_request Examples.client "q") _ eq_refl).
  split; [reflexivity | exact Hexit].
Defined.

Lemma retry_loop_failed_passes (w : Backend) (request : Request) (max_retries : Z) :
  forall (n : nat) (s : LoopState),
    (forall i, (requests s <= i < requests s + n)%nat ->
               exists name, post w i request = RaisesException name) ->
    response s = None ->
    num_fails s + Z.of_nat n <= max_retries ->
    in_window (sleep_time s) ->
    exists s' new,
      (forall fuel, retry_loop (n + fuel) w request max_retries s
                    = retry_loop fuel w request max_retries s') /\
      response s' = None /\
      num_fails s' = num_fails s + Z.of_nat n /\
      requests s' = (requests s + n)%nat /\
      slept s' = (slept s ++ new)%list /\
      List.length new = n /\
      Forall in_window new.
Proof.
  induction n as [|n IH]; intros s Hpost Hresp Hfails Hsleep.
  - exists s, []. rewrite app_nil_r, Nat.add_0_r, Z.add_0_r.
    repeat split; auto.
  - destruct (Hpost (requests s)) as [name Hname]; [lia|].
    destruct (py_min_window _ Hsleep) as [Hwin Hnz].
    set (s1 := {| response := None; num_fails := num_fails s + 1;
                  sleep_time := py_min (sleep_time s * (2 # 1)) (10 # 1);
                  requests := S (requests s);
                  slept := (slept s ++ [py_min (sleep_time s * (2 # 1)) (10 # 1)])%list;
                  drawn := drawn s |}).
    destruct (IH s1) as (s' & new & Hrun & Hr & Hnf & Hreq & Hsl & Hlen & Hall).
    { intros i Hi. apply Hpost. cbn in Hi. lia. }
    { reflexivity. }
    { cbn [num_fails s1]. lia. }
    { exact Hwin. }
    exists s', (py_min (sleep_time s * (2 # 1)) (10 # 1) :: new).
    split; [|split; [exact Hr|split; [|split; [|split; [|split]]]]].
    + intros fuel. cbn [Nat.add retry_loop].
      unfold loop_condition, not_response. rewrite Hresp.
      replace (num_fails s <? max_retries)%Z with true
        by (symmetry; apply Z.ltb_lt; lia).
      cbn [andb]. unfold attempt. rewrite Hname, Hnz. apply Hrun.
    + rewrite Hnf. cbn [num_fails s1]. lia.
    + rewrite Hreq. cbn [requests s1]. lia.
    + rewrite Hsl. cbn [slept s1]. now rewrite <- app_assoc.
    + cbn. now rewrite Hlen.
    + constructor; [exact Hwin | exact Hall].
Qed.

(** X10: when the first [n] requests raise, with [n] below
    [max_retries], and the next one is answered with a status outside
    400-599, the call makes [n + 1] requests, counts [n] failures, sleeps [n]
    times, each between 1 and 10 seconds, and returns the JSON body of that
    response (or raises [JSONDecodeError] if the body is not JSON). *)
Theorem recovers_after_transient_failures
    (fuel n : nat) (w : Backend) (self : SerperAPI)
    (search_term search_type : string) (max_retries : Z)
    (kwargs : list (string * json)) (r : Response) :
  (forall i req, (i < n)%nat -> exists name, post w i req = RaisesException name) ->
  (forall req, post w n req = Responds r) ->
  ok r = true ->
  (1 <= uniform_1_3 w 0 <= 3)%Q ->
  Z.of_nat n < max_retries ->
  (n < fuel)%nat ->
  exists s,
    _google_serper_api_results fuel w self search_term search_type
      max_retries kwargs = (of_result (response_json r), s) /\
    requests s = S n /\
    num_fails s = Z.of_nat n /\
    List.length (slept s) = n /\
    Forall (fun d => 1 <= d <= 10)%Q (slept s).
Proof.
  intros Hfail Hresp Hok Hdraw Hmax Hfuel.
  unfold _google_serper_api_results.
  match goal with |- context [retry_loop _ _ ?req _ _] => set (request := req) end.
  assert (Hlast : forall s0 f,
             response s0 = None -> requests s0 = n ->
             num_fails s0 = Z.of_nat n ->
             retry_loop (S f) w request max_retries s0
             = (Exited, {| response := Some r; num_fails := num_fails s0;
                           sleep_time := sleep_time s0; requests := S n;
                           slept := slept s0; drawn := drawn s0 |})).
  { intros s0 f Hr0 Hq0 Hn0. cbn [retry_loop].
    unfold loop_condition at 1, not_response at 1. rewrite Hr0, Hn0.
    replace (Z.of_nat n <? max_retries)%Z with true
      by (symmetry; apply Z.ltb_lt; lia).
    cbn [andb]. unfold attempt. rewrite Hq0, Hresp, Hn0.
    assert (Hc : forall st, response st = Some r ->
                            loop_condition max_retries st = false).
    { intros st Hst. unfold loop_condition, not_response.
      now rewrite Hst, Hok. }
    destruct f; cbn [retry_loop]; rewrite Hc; reflexivity. }
  assert (Hdone : of_result (_ <- raise_for_status r ;; response_json r)
                  = of_result (response_json r)).
  { unfold raise_for_status, ok in *. apply negb_true_iff in Hok.
    now rewrite Hok. }
  destruct n as [|n].
  - destruct fuel as [|fuel]; [lia|].
    rewrite (Hlast initial fuel eq_refl eq_refl eq_refl).
    cbn [response]. rewrite Hok, Hdone. eexists. split; [reflexivity|].
    cbn. repeat split; auto.
  - destruct fuel as [|fuel]; [lia|].
    destruct (Hfail 0%nat request) as [name Hname]; [lia|].
    set (s1 := {| response := None; num_fails := 0 + 1;
                  sleep_time := uniform_1_3 w 0; requests := 1;
                  slept := [uniform_1_3 w 0]; drawn := 1 |}).
    assert (Hfirst : retry_loop (S fuel) w request max_retries initial
                     = retry_loop fuel w request max_retries s1).
    { cbn [retry_loop]. unfold loop_condition.
      replace (num_fails initial <? max_retries)%Z with true
        by (symmetry; apply Z.ltb_lt; cbn; lia).
      cbn [not_response initial response andb]. unfold attempt.
      cbn [requests initial]. rewrite Hname. reflexivity. }
    rewrite Hfirst.
    destruct (retry_loop_failed_passes w request max_retries n s1)
      as (s' & new & Hrun & Hr & Hnf & Hreq & Hsl & Hlen & Hall).
    { intros i Hi. apply Hfail. cbn in Hi. lia. }
    { reflexivity. }
    { cbn [num_fails s1]. lia. }
    { unfold in_window. cbn [sleep_time s1]. lra. }
    replace fuel with (n + S (fuel - n - 1))%nat by lia.
    rewrite Hrun. cbn [requests num_fails slept s1] in *.
    rewrite (Hlast s' _ Hr); [|lia|lia].
    cbn [response]. rewrite Hok, Hdone. eexists. split; [reflexivity|].
    cbn [requests num_fails slept]. rewrite Hsl, Hnf.
    split; [reflexivity|]. split; [lia|]. split; [cbn; now rewrite Hlen|].
    constructor; [lra | exact Hall].
Qed.

Lemma recovers_after_transient_failures_witness :
  exists s,
    _google_serper_api_results 5 Examples.answers_after_a_timeout
      Examples.client "q" "search" 3 (run_kwargs Examples.client)
    = (of_result (response_json Examples.paris), s) /\
    requests s = 2%nat /\
    num_fails s = Z.of_nat 1 /\
    List.length (slept s) = 1%nat /\
    Forall (fun d => 1 <= d <= 10)%Q (slept s).
Proof.
  apply (recovers_after_transient_failures 5 1 Examples.answers_after_a_timeout
           Examples.client "q" "search" 3 (run_kwargs Examples.client)
           Examples.paris).
  - intros [|i] req Hi; [cbn; eauto | lia].
  - reflexivity.
  - reflexivity.
  - cbn. lra.
  - lia.
  - lia.
Defined.

(** X9: [timeouts_exhaust_retries] at a backend that always times out. *)
Lemma timeouts_exhaust_retries_witness :
  exists s later,
    _google_serper_api_results 10 Examples.always_times_out Examples.client
      "q" "search" 3 (run_kwargs Examples.client) = (Raises ValueError, s) /\
    requests s = Z.to_nat 3 /\
    slept s = uniform_1_3 Examples.always_times_out 0 :: later /\
    Expected.backoff (uniform_1_3 Examples.always_times_out 0) later /\
    Forall (fun d => 1 <= d <= 10)%Q (slept s).
Proof.
  apply (timeouts_exhaust_retries Examples.always_times_out Examples.client
           "q" "search" (run_kwargs Examples.client) 3 10).
  - intros i req. cbn. eauto.
  - cbn. lra.
  - lia.
  - cbn. lia.
Defined.

Lemma retry_loop_replay (w : Backend) (request : Request) (max_retries : Z) :
  forall (fuel : nat) (s : LoopState),
    retry_loop fuel (replay w request) request max_retries s
    = retry_loop fuel w request max_retries s.
Proof.
  induction fuel as [|fuel IH]; intros s; cbn [retry_loop]; [reflexivity|].
  destruct (loop_condition max_retries s); [|reflexivity].
  unfold attempt. cbn [post replay uniform_1_3].
  destruct (post w (requests s) request); try apply IH; reflexivity.
Qed.

(** X14: every attempt of a run sends the same request: a POST to
    [https://google.serper.dev/<search_type>] with the key in the
    [X-API-KEY] header, a timeout of 30, and the parameters [q], [gl], [hl]
    and [num], plus [tbs] only when it is configured.  The outcome of [run]
    depends on the backend only through its answers to that request. *)
Theorem run_sends_one_request (fuel : nat) (w : Backend) (self : SerperAPI)
    (query : string) (max_retries : Z) :
  run fuel w self query max_retries
  = run fuel (replay w (run_request self query)) self query max_retries.
Proof.
  unfold run. destruct (serper_api_key self =? "")%string; [reflexivity|].
  unfold _google_serper_api_results.
  assert (Hreq : {| url := _SERPER_URL ++ "/" ++ search_type_name (search_type self);
                    headers := [("X-API-KEY", serper_api_key self);
                                ("Content-Type", "application/json")];
                    params := ("q", JStr query)
                              :: filter (fun kv => is_not_None (snd kv))
                                        (run_kwargs self);
                    timeout := 30 |} = run_request self query).
  { unfold run_request, run_kwargs. destruct (tbs self); reflexivity. }
  rewrite Hreq. now rewrite retry_loop_replay.
Qed.


End RetryMore.

(** ** Citations *)

Section CitationsMore.
Import Citation.

Lemma span_url_spec (s run rest : string) :
  span_url s = (run, rest) ->
  s = run ++ rest /\
  no_char rbracket run = true /\
  (rest = "" \/ exists r, rest = String rbracket r).
Proof.
  revert run. induction s as [|c s IH]; intros run; cbn [span_url].
  - intros [= <- <-]. auto.
  - destruct (Ascii.eqb c rbracket) eqn:E.
    + intros [= <- <-]. apply Ascii.eqb_eq in E. subst c.
      repeat split; eauto.
    + destruct (span_url s) as [run' rest']. intros [= <- <-].
      destruct (IH run' eq_refl) as (-> & Hno & Hrest).
      repeat split; auto. cbn [no_char]. rewrite Ascii.eqb_sym, E. exact Hno.
Qed.

Lemma match_rest_sound (s u after : string) :
  match_rest s = Some (u, after) ->
  s = u ++ String rbracket after /\
  exists c run, u = "://" ++ String c run /\
                no_char rbracket (String c run) = true.
Proof.
  unfold match_rest.
  destruct (strip_prefix "://" s) as [t|] eqn:Hp; [|discriminate].
  apply strip_prefix_Some in Hp. subst s.
  destruct (span_url t) as [[|c run] [|x rest]] eqn:Hs; try discriminate.
  intros [= <- <-]. destruct (span_url_spec _ _ _ Hs) as (-> & Hno & Hrest).
  destruct Hrest as [?|[r Hr]]; [discriminate|]. injection Hr as -> ->.
  split; [reflexivity|]. exists c, run. split; [reflexivity | exact Hno].
Qed.

Lemma match_here_sound (s u after : string) :
  match_here s = Some (u, after) ->
  s = marker u ++ after /\ is_url u = true.
Proof.
  unfold match_here.
  destruct (strip_prefix opening s) as [t|] eqn:Hp; [|discriminate].
  apply strip_prefix_Some in Hp. subst s.
  assert (Hplain : forall u2 a2,
             match_rest t = Some (u2, a2) ->
             opening ++ t = marker ("http" ++ u2) ++ a2 /\
             is_url ("http" ++ u2) = true).
  { intros u2 a2 H. destruct (match_rest_sound _ _ _ H) as (-> & c & run & -> & Hno).
    split.
    - unfold marker, opening. cbn. now rewrite !append_assoc.
    - change (no_char rbracket (String c run) = true). exact Hno. }
  destruct (strip_prefix "s" t) as [t'|] eqn:Hs.
  - apply strip_prefix_Some in Hs.
    destruct (match_rest t') as [[u1 a1]|] eqn:H1.
    + intros [= <- <-]. subst t.
      destruct (match_rest_sound _ _ _ H1) as (-> & c & run & -> & Hno).
      split.
      * unfold marker, opening. cbn. now rewrite !append_assoc.
      * change (no_char rbracket (String c run) = true). exact Hno.
    + destruct (match_rest t) as [[u2 a2]|] eqn:H2; [|discriminate].
      intros [= <- <-]. now apply Hplain.
  - destruct (match_rest t) as [[u2 a2]|] eqn:H2; [|discriminate].
    intros [= <- <-]. now apply Hplain.
Qed.

Lemma occurs_skip (needle : string) (c : ascii) (hay : string) :
  occurs needle hay = true -> occurs needle (String c hay) = true.
Proof.
  intros H. cbn [occurs]. now destruct (strip_prefix needle (String c hay)).
Qed.

Lemma findall_from_sound (n : nat) (s u : string) :
  In u (findall_from n s) ->
  is_url u = true /\ occurs (marker u) s = true.
Proof.
  revert s. induction n as [|n IH]; intros s; [destruct s; contradiction|].
  destruct s as [|c rest]; [contradiction|]. cbn [findall_from].
  destruct (match_here (String c rest)) as [[u' after]|] eqn:Hm.
  - destruct (match_here_sound _ _ _ Hm) as [Heq Hu']. intros [<-|Hin].
    + split; [exact Hu'|]. rewrite Heq.
      apply (occurs_here _ _ after). apply strip_prefix_append.
    + destruct (IH _ Hin) as [Hu Hocc]. split; [exact Hu|].
      rewrite Heq. now apply occurs_append_r.
  - intros Hin. destruct (IH _ Hin) as [Hu Hocc]. split; [exact Hu|].
    now apply occurs_skip.
Qed.

(** X15: every source the pattern extracts is [http://] or [https://]
    followed by at least one character, holds no closing bracket, and is the
    URL of a marker that occurs in the text. *)
Theorem sources_are_markers (result_text u : string) :
  In u (sources result_text) ->
  is_url u = true /\ occurs (marker u) result_text = true.
Proof. apply findall_from_sound. Qed.

Lemma sources_are_markers_witness :
  is_url "https://x" = true /\
  occurs (marker "https://x") "Paris [Source: https://x]" = true.
Proof.
  apply (sources_are_markers "Paris [Source: https://x]" "https://x").
  left. reflexivity.
Defined.

Lemma marker_length_positive (u : string) : (0 < String.length (marker u))%nat.
Proof. unfold marker. cbn. lia. Qed.

Lemma removed_length_from (n : nat) (s : string) :
  (String.length s <= n)%nat ->
  String.length s
  = (String.length (sub_from n s)
     + list_sum (map (fun u => String.length (marker u)) (findall_from n s)))%nat.
Proof.
  revert s. induction n as [|n IH]; intros s Hn.
  - destruct s; [reflexivity | cbn in Hn; lia].
  - destruct s as [|c rest]; [reflexivity|]. cbn [sub_from findall_from].
    destruct (match_here (String c rest)) as [[u after]|] eqn:Hm.
    + destruct (match_here_sound _ _ _ Hm) as [Heq _].
      pose proof (match_here_shorter _ _ _ Hm) as Hshort.
      cbn [map list_sum]. rewrite Heq at 1. rewrite length_append.
      cbn [String.length] in Hn, Hshort.
      rewrite (IH after) at 1 by lia. unfold list_sum. cbn [fold_right]. lia.
    + cbn [String.length] in *. rewrite (IH rest) at 1 by lia. lia.
Qed.

Lemma sub_from_unchanged (n : nat) (s : string) :
  (String.length s <= n)%nat ->
  findall_from n s = [] -> sub_from n s = s.
Proof.
  revert s. induction n as [|n IH]; intros s Hn.
  - destruct s; [reflexivity | cbn in Hn; lia].
  - destruct s as [|c rest]; [reflexivity|]. cbn [sub_from findall_from].
    destruct (match_here (String c rest)) as [[u after]|]; [discriminate|].
    intros H. cbn [String.length] in Hn. rewrite (IH rest); [reflexivity|lia|exact H].
Qed.

(** X16: [re.sub] removes exactly the markers [re.findall] lists: the
    length of the text is the length of what is left plus the lengths of the
    markers of the sources found; and the text is left unchanged exactly
    when no source is found. *)
Theorem sub_removes_what_findall_finds (result_text : string) :
  String.length result_text
  = (String.length (sub result_text)
     + list_sum (map (fun u => String.length (marker u)) (sources result_text)))%nat
  /\ (sources result_text = [] <-> sub result_text = result_text).
Proof.
  pose proof (removed_length_from (String.length result_text) result_text
                (Nat.le_refl _)) as Hlen.
  split; [exact Hlen|]. unfold sources, findall, sub in *. split.
  - apply sub_from_unchanged. lia.
  - intros Hsame. rewrite Hsame in Hlen.
    destruct (findall_from (String.length result_text) result_text) as [|u us];
      [reflexivity|].
    unfold list_sum in Hlen. cbn [map fold_right] in Hlen.
    pose proof (marker_length_positive u). lia.
Qed.

(** X17: from the serializer to the reader.  For items whose snippets
    are text without an opening bracket and whose links are empty or URLs
    the pattern accepts, [format_items] produces a text, which is what
    [_parse_results] returns for a response with these items; [sources]
    reads back from it exactly the links the items carry, in order, and
    finds nothing in [clean_text]. *)
Theorem format_items_round_trip (items : list Serper.item) :
  forallb Expected.plain_item items = true ->
  exists text,
    Serper.format_items items = Py.Ok text /\
    (forall self results,
        Serper._parse_snippets_with_links self results = Py.Ok items ->
        Serper._parse_results self results = Py.Ok text) /\
    sources text = Expected.links items /\
    sources (clean_text text) = [].
Proof.
  intros Hplain. exists (Expected.serialized_text items).
  assert (Hfmt : Serper.format_items items
                 = Py.Ok (Expected.serialized_text items)).
  { unfold Serper.format_items, Py.join.
    destruct (all_str_text_snippets items) as [ss Hss].
    { apply Forall_forall. intros it Hin.
      apply (proj1 (forallb_forall _ _) Hplain) in Hin.
      unfold Expected.plain_item in Hin.
      destruct (Serper.snippet it); try discriminate. reflexivity. }
    rewrite Hss. cbn [Py.bind].
    now rewrite (all_str_format _ _ Hss). }
  split; [exact Hfmt|]. split.
  - intros self results Hitems. unfold Serper._parse_results.
    rewrite Hitems. exact Hfmt.
  - now apply serialized_batch_round_trip.
Qed.

Lemma format_items_round_trip_witness :
  exists text,
    Serper.format_items Cases.linked_items = Py.Ok text /\
    (forall self results,
        Serper._parse_snippets_with_links self results
        = Py.Ok Cases.linked_items ->
        Serper._parse_results self results = Py.Ok text) /\
    sources text = ["https://t"; "https://t"] /\
    sources (clean_text text) = [].
Proof.
  apply (format_items_round_trip Cases.linked_items). reflexivity.
Defined.

End CitationsMore.

(** ** The web app *)

Section AppMore.
Import Py App.

(** X19: every entry the app appends to the history has [correct] set
    to [None], so the count behind the Accuracy metric is 0 for every
    history the app can build. *)
Theorem accuracy_counts_nothing (history : list json) :
  Forall (fun h => exists claim answer num_searches elapsed_time,
              h = history_entry claim answer num_searches elapsed_time)
         history ->
  correct history = Ok 0.
Proof.
  induction 1 as [|h history (c & a & n & t & ->) _ IH]; [reflexivity|].
  cbn [correct]. unfold history_entry at 1. cbn [get bind].
  rewrite IH. reflexivity.
Qed.

Lemma accuracy_counts_nothing_witness :
  correct Cases.two_verifications = Ok 0.
Proof.
  apply (accuracy_counts_nothing Cases.two_verifications).
  repeat constructor; repeat eexists.
Defined.

Lemma lstrip_head (s : string) :
  match Citation.lstrip s with
  | "" => True
  | String c _ => Citation.isspace c = false
  end.
Proof.
  induction s as [|c s IH]; cbn [Citation.lstrip]; [exact I|].
  destruct (Citation.isspace c) eqn:E; [exact IH | exact E].
Qed.

Lemma rstrip_head (s : string) :
  match s with
  | "" => True
  | String c _ => Citation.isspace c = false
  end ->
  match Citation.rstrip s with
  | "" => s = ""
  | String c _ => Citation.isspace c = false
  end.
Proof.
  destruct s as [|c s]; [reflexivity|]. cbn [Citation.rstrip]. intros Hc.
  destruct (Citation.rstrip s); [rewrite Hc|]; exact Hc.
Qed.

Lemma rstrip_last (s : string) :
  Citation.rstrip s = "" \/
  exists init last, Citation.rstrip s = init ++ String last "" /\
                    Citation.isspace last = false.
Proof.
  induction s as [|c s IH]; cbn [Citation.rstrip]; [now left|].
  destruct (Citation.rstrip s) as [|y kept] eqn:E.
  - destruct (Citation.isspace c) eqn:Hc; [now left|].
    right. exists "", c. auto.
  - right. destruct IH as [?|(init & last & Heq & Hl)]; [discriminate|].
    exists (String c init), last. cbn. now rewrite Heq.
Qed.

(** X18: a claim reaches the verification only when the form was
    submitted, and it is then the input stripped: not empty, with no
    whitespace at either end. *)
Theorem submitted_claim_is_trimmed (submit_button : bool)
    (claim_input claim : string) :
  submitted_claim submit_button claim_input = Some claim ->
  submit_button = true /\
  claim = Citation.strip claim_input /\
  (exists first rest, claim = String first rest /\
                      Citation.isspace first = false) /\
  (exists init last, claim = init ++ String last "" /\
                     Citation.isspace last = false).
Proof.
  unfold submitted_claim. destruct submit_button; [|discriminate].
  cbn [andb truthy].
  destruct (Citation.strip claim_input =? "") eqn:E; [discriminate|].
  cbn [negb]. intros [= <-]. apply String.eqb_neq in E.
  split; [reflexivity|]. split; [reflexivity|]. unfold Citation.strip in *.
  split.
  - pose proof (rstrip_head _ (lstrip_head claim_input)) as H.
    destruct (Citation.rstrip (Citation.lstrip claim_input)) as [|c rest];
      [congruence | eauto].
  - destruct (rstrip_last (Citation.lstrip claim_input)) as [?|?];
      [congruence | assumption].
Qed.

Lemma submitted_claim_is_trimmed_witness :
  true = true /\
  "Paris is in France." = Citation.strip "  Paris is in France. " /\
  (exists first rest, "Paris is in France." = String first rest /\
                      Citation.isspace first = false) /\
  (exists init last, "Paris is in France." = init ++ String last "" /\
                     Citation.isspace last = false).
Proof.
  apply (submitted_claim_is_trimmed true "  Paris is in France. ").
  reflexivity.
Defined.

End AppMore.

(** ** The batch script *)

Section BatchMore.
Import Py Batch.

Variables Result Searches : Type.
Variable loads : string -> Py.result json.
Variable verify : nat -> json -> option Result * Searches * option Usage.

Lemma process_line_accounts (st st' : State Result Searches) (line : string) :
  process_line Result Searches loads verify st line = Ok st' ->
  calls st' = S (calls st) /\
  ((failed_cnt st' = failed_cnt st + 1 /\
    List.length (written st') = List.length (written st) /\
    slept st' = slept st) \/
   (failed_cnt st' = failed_cnt st /\
    List.length (written st') = S (List.length (written st)) /\
    slept st' = (slept st ++ [30])%list)).
Proof.
  unfold process_line.
  destruct (loads line) as [data|]; [|discriminate]. cbn [bind].
  destruct (getitem data "claim") as [c|]; [|discriminate]. cbn [bind].
  destruct (getitem data "label") as [l|]; [|discriminate]. cbn [bind].
  destruct (verify (calls st) c) as [[[r|] s] u].
  - destruct (isinstance_str l); [|discriminate]. intros [= <-]. cbn.
    split; [reflexivity|]. right. rewrite length_app. cbn.
    repeat split. lia.
  - intros [= <-]. cbn. split; [reflexivity|]. left. auto.
Qed.

Lemma process_accounts (lines : list string) :
  forall st st' : State Result Searches,
    process Result Searches loads verify st lines = Ok st' ->
    calls st' = (calls st + List.length lines)%nat /\
    failed_cnt st <= failed_cnt st' /\
    failed_cnt st' + Z.of_nat (List.length (written st'))
    = failed_cnt st + Z.of_nat (List.length (written st))
      + Z.of_nat (List.length lines) /\
    slept st'
    = (slept st
       ++ repeat 30 (List.length (written st') - List.length (written st)))%list /\
    (List.length (written st) <= List.length (written st'))%nat.
Proof.
  induction lines as [|line rest IH]; intros st st'; cbn [process].
  - intros [= <-]. rewrite Nat.sub_diag, Nat.add_0_r. cbn.
    rewrite app_nil_r. repeat split; lia.
  - destruct (process_line Result Searches loads verify st line) as [mid|] eqn:Hl;
      [|discriminate].
    cbn [bind]. intros Hrest.
    destruct (process_line_accounts _ _ _ Hl) as (Hc & Hcase).
    destruct (IH _ _ Hrest) as (Hc' & Hf' & Hsum & Hs & Hw).
    cbn [List.length].
    destruct Hcase as [(Hf & Hwl & Hsl) | (Hf & Hwl & Hsl)].
    + rewrite Hs, Hsl, Hwl. repeat split; try lia.
    + rewrite Hs, Hsl. repeat split; try lia.
      rewrite <- app_assoc. f_equal.
      replace (List.length (written st') - List.length (written st))%nat
        with (S (List.length (written st') - List.length (written mid)))%nat
        by lia.
      reflexivity.
Qed.

Lemma slice_to_length_min {A : Type} (l : list A) (n : Z) :
  0 <= n -> List.length (slice_to l n) = Nat.min (Z.to_nat n) (List.length l).
Proof.
  intros Hn. unfold slice_to.
  destruct (0 <=? n)%Z eqn:E; [apply length_firstn | lia].
Qed.

(** X20: when the script reaches its summary, it has called the
    verification once for each of the first three lines of the data file,
    every one of them is either counted as failed or written to the output,
    and it has slept 30 seconds once per written line, so not after a failed
    one. *)
Theorem script_accounts_for_every_line
    (lines : list string) (st : State Result Searches) :
  run_script Result Searches loads verify lines = Ok st ->
  calls st = Nat.min 3 (List.length lines) /\
  0 <= failed_cnt st /\
  failed_cnt st + Z.of_nat (List.length (written st))
  = Z.of_nat (Nat.min 3 (List.length lines)) /\
  slept st = repeat 30 (List.length (written st)).
Proof.
  unfold run_script. intros H.
  destruct (process_accounts _ _ _ H) as (Hc & Hf & Hsum & Hs & _).
  assert (Hlen : List.length (slice_to lines num_samples)
                 = Nat.min 3 (List.length lines))
    by (apply slice_to_length_min; unfold num_samples; lia).
  rewrite Hlen in Hc, Hsum.
  cbn [calls failed_cnt written slept start List.length app] in *.
  rewrite Nat.sub_0_r in Hs.
  split; [exact Hc|]. split; [exact Hf|]. split; [lia | exact Hs].
Qed.

(** X21: the summary always reports three claims, and as
    successes three minus the failures: when the data file has fewer than
    three lines, the missing ones are reported as successes. *)
Theorem summary_counts_missing_lines_as_successes
    (lines : list string) (st : State Result Searches) :
  run_script Result Searches loads verify lines = Ok st ->
  reported_total st = 3 /\
  reported_successes st
  = Z.of_nat (List.length (written st))
    + Z.of_nat (3 - List.length lines) /\
  ((List.length lines < 3)%nat ->
   Z.of_nat (List.length (written st)) < reported_successes st).
Proof.
  unfold run_script, reported_successes, reported_total. intros H.
  destruct (process_accounts _ _ _ H) as (_ & _ & Hsum & _ & _).
  assert (Hlen : List.length (slice_to lines num_samples)
                 = Nat.min 3 (List.length lines))
    by (apply slice_to_length_min; unfold num_samples; lia).
  rewrite Hlen in Hsum. change num_samples with 3.
  cbn [failed_cnt written start List.length] in *.
  repeat split; lia.
Qed.

End BatchMore.

Section BatchExamples.
Import Py Batch.

Lemma script_accounts_for_every_line_witness :
  exists st,
    run_script string unit Cases.loads_one Cases.verifies Cases.one_line
      = Ok st /\
    calls st = Nat.min 3 1 /\
    0 <= failed_cnt st /\
    failed_cnt st + Z.of_nat (List.length (written st))
    = Z.of_nat (Nat.min 3 1) /\
    slept st = repeat 30 (List.length (written st)).
Proof.
  eexists. split; [reflexivity|].
  apply (script_accounts_for_every_line string unit Cases.loads_one
           Cases.verifies Cases.one_line).
  reflexivity.
Defined.

Lemma summary_counts_missing_lines_as_successes_witness :
  exists st,
    run_script string unit Cases.loads_one Cases.verifies Cases.one_line
      = Ok st /\
    List.length (written st) = 1%nat /\
    reported_successes st = 3.
Proof.
  eexists. split; [reflexivity|]. split; [reflexivity|].
  destruct (summary_counts_missing_lines_as_successes string unit
              Cases.loads_one Cases.verifies Cases.one_line _ eq_refl)
    as (_ & H & _).
  rewrite H. reflexivity.
Defined.

End BatchExamples.
